(** * SpikeGLX reader ([ephys/spikeglx.py]): shallow embedding and properties

    The Python module reads a SpikeGLX recording: a [key=value] metadata text
    and a flat interleaved binary sample file.  The embedding below follows
    the module function by function.

    Modelling conventions.
    - A Python [str] is a [string] (a sequence of 8-bit characters); the
      whitespace class is the one [str.strip], [str.split] and [int] use on
      the ASCII range.
    - A Python exception is a value of [exn]; a computation that may raise is
      a [result].  The constructor of a [ValueError] names the raise site.
    - A [dict] with string keys is a [gmap string _]; the heterogeneous
      dictionaries the parser builds are records.
    - A Python [float] and a NumPy [float64] are binary64 primitive floats.
    - The file system is a finite map from paths to file contents. *)

From Stdlib Require Import ZArith Ascii String PrimFloat FloatOps SpecFloat Lia.
From stdpp Require Import gmap strings list sorting.

Local Open Scope string_scope.
Local Open Scope Z_scope.
Local Open Scope list_scope.

(** ** Exceptions and the error monad *)

Inductive value_error : Type :=
  | UnpackNotEnough (expected got : nat)
      (* not enough values to unpack *)
  | UnpackTooMany (expected : nat)
      (* too many values to unpack *)
  | InvalidIntLiteral (s : string)
      (* invalid literal for int() with base 10 *)
  | InvalidFloatLiteral
      (* could not convert string to float *)
  | BadFilename
      (* "Filename must end with either '.meta' or '.bin'" *)
  | InvalidChanMapHeader
      (* "Invalid header format in snsChanMap" *)
  | InvalidGeomMap
      (* "Invalid snsGeomMap format" *)
  | MissingImro
      (* "Missing 'imroTbl' or 'channels' in metadata for imec recording" *)
  | UnrecognizedImecFile
      (* "Unrecognized file type for imec recording: ..." *)
  | MissingNidq
      (* "Missing required metadata for nidq recording" *)
  | UnrecognizedRecordingType
      (* "Unrecognized recording type: ..." *)
  | NegativeDimensions
      (* NumPy: negative dimensions are not allowed *)
  | MmapOutOfFile
      (* mmap: the requested window does not lie in the file *)
  | CannotReshape
      (* NumPy: cannot reshape array *)
  | CannotBroadcast.
      (* NumPy: operands could not be broadcast together *)

Inductive exn : Type :=
  | ValueError (why : value_error)
  | KeyError (key : string)
  | IndexError
  | TypeError
  | AttributeError
  | ZeroDivisionError
  | OverflowError
  | FileNotFoundError (path : string).

Inductive result (A : Type) : Type :=
  | Ok (a : A)
  | Raise (e : exn).
Arguments Ok {A} a.
Arguments Raise {A} e.

#[global] Instance result_ret : MRet result := fun _ a => Ok a.
#[global] Instance result_bind : MBind result := fun _ _ f m =>
  match m with
  | Ok a => f a
  | Raise e => Raise e
  end.
#[global] Instance result_fmap : FMap result := fun _ _ f m =>
  match m with
  | Ok a => Ok (f a)
  | Raise e => Raise e
  end.

(** [d[k]] on a dictionary: [KeyError] when the key is absent. *)
Definition getitem {V : Type} (d : gmap string V) (k : string) : result V :=
  match d !! k with
  | Some v => Ok v
  | None => Raise (KeyError k)
  end.

(** [[f(x) for x in l]], stopping at the first exception. *)
Fixpoint map_result {A B : Type} (f : A → result B) (l : list A) : result (list B) :=
  match l with
  | [] => Ok []
  | x :: l' => y ← f x; ys ← map_result f l'; Ok (y :: ys)
  end.

(** The error kinds of the specification, as the exceptions the module raises. *)
Definition MalformedLine : exn := ValueError (UnpackNotEnough 2 1).
Definition UnrecognizedFileKind : exn := ValueError UnrecognizedImecFile.
Definition UnknownRecordingType : exn := ValueError UnrecognizedRecordingType.
Definition MissingField : exn := ValueError MissingImro.
Definition InvalidFilename : exn := ValueError BadFilename.

(** ** Python string operations *)

Definition ascii_eqb (a b : ascii) : bool := bool_decide (a = b).

Definition is_space (c : ascii) : bool :=
  let n := N_of_ascii c in
  (((9 <=? n) && (n <=? 13)) || ((28 <=? n) && (n <=? 32)))%N.

Definition is_digit (c : ascii) : bool :=
  let n := N_of_ascii c in ((48 <=? n) && (n <=? 57))%N.

Definition digit_val (c : ascii) : Z := Z.of_N (N_of_ascii c) - 48.

Definition is_empty (s : string) : bool :=
  match s with
  | EmptyString => true
  | String _ _ => false
  end.

Fixpoint lstrip (s : string) : string :=
  match s with
  | EmptyString => EmptyString
  | String c s' => if is_space c then lstrip s' else s
  end.

Fixpoint rstrip (s : string) : string :=
  match s with
  | EmptyString => EmptyString
  | String c s' =>
      let r := rstrip s' in
      if is_space c && is_empty r then EmptyString else String c r
  end.

(** [s.strip()] *)
Definition strip (s : string) : string := rstrip (lstrip s).

(** [s.split(sep, 1)] for a one-character separator: [None] stands for the
    one-element list [[s]], [Some (a, b)] for [[a, b]]. *)
Fixpoint split_once (sep : ascii) (s : string) : option (string * string) :=
  match s with
  | EmptyString => None
  | String c s' =>
      if ascii_eqb c sep then Some (EmptyString, s')
      else match split_once sep s' with
           | Some (a, b) => Some (String c a, b)
           | None => None
           end
  end.

(** [s.split(sep)] for a one-character separator. *)
Fixpoint split_char (sep : ascii) (s : string) : list string :=
  match s with
  | EmptyString => [EmptyString]
  | String c s' =>
      if ascii_eqb c sep then EmptyString :: split_char sep s'
      else match split_char sep s' with
           | h :: t => String c h :: t
           | [] => [String c EmptyString]
           end
  end.

(** [s.split()]: maximal runs of non-whitespace characters. *)
Fixpoint split_ws (s : string) : list string :=
  match s with
  | EmptyString => []
  | String c s' =>
      if is_space c then split_ws s'
      else match s' with
           | EmptyString => [String c EmptyString]
           | String c' _ =>
               if is_space c' then String c EmptyString :: split_ws s'
               else match split_ws s' with
                    | h :: t => String c h :: t
                    | [] => [String c EmptyString]
                    end
           end
  end.

(** [s.startswith(p)] *)
Fixpoint startswith (p s : string) : bool :=
  match p, s with
  | EmptyString, _ => true
  | String a p', String b s' => ascii_eqb a b && startswith p' s'
  | String _ _, EmptyString => false
  end.

(** [s.endswith(p)] *)
Fixpoint endswith (p s : string) : bool :=
  match s with
  | EmptyString => is_empty p
  | String _ s' => bool_decide (s = p) || endswith p s'
  end.

(** [s.replace(old, new)] for a non-empty [old]: the occurrences are taken
    from the left and do not overlap.  [skip] counts the characters of the
    occurrence being replaced that are still to be passed over. *)
Fixpoint replace_from (skip : nat) (old new s : string) : string :=
  match s with
  | EmptyString => EmptyString
  | String c s' =>
      match skip with
      | S k => replace_from k old new s'
      | O =>
          if startswith old s
          then new +:+ replace_from (String.length old - 1)%nat old new s'
          else String c (replace_from 0 old new s')
      end
  end.

Definition replace (old new s : string) : string := replace_from 0 old new s.

(** Substring test [p in s]. *)
Fixpoint contains (p s : string) : bool :=
  startswith p s ||
  match s with
  | EmptyString => false
  | String _ s' => contains p s'
  end.

(** [int(s)]: surrounding whitespace, an optional sign, decimal digits with
    single underscores between digits. *)
Fixpoint int_digits (acc : Z) (after_digit : bool) (s : string) : option Z :=
  match s with
  | EmptyString => if after_digit then Some acc else None
  | String c s' =>
      if is_digit c then int_digits (10 * acc + digit_val c) true s'
      else if ascii_eqb c "_" && after_digit then int_digits acc false s'
      else None
  end.

Definition int_literal (s : string) : option Z :=
  match strip s with
  | String "+" r => int_digits 0 false r
  | String "-" r => Z.opp <$> int_digits 0 false r
  | t => int_digits 0 false t
  end.

Definition py_int (s : string) : result Z :=
  match int_literal s with
  | Some z => Ok z
  | None => Raise (ValueError (InvalidIntLiteral s))
  end.

(** ** Numbers: Python [int], Python [float], NumPy [float64] *)

(** The binary64 number nearest to [a / b] (ties to even), for [0 <= a] and
    [0 < b], with the sign [neg]; infinite when the quotient is out of range. *)
Definition float_of_ratio (neg : bool) (a b : Z) : float :=
  if a =? 0 then (if neg then (-0)%float else 0%float)
  else
    let '(q, e, l) := SFdiv_core_binary 53 1024 a 0 b 0 in
    SF2Prim (binary_round_aux 53 1024 neg q e l).

Definition is_inf (f : float) : bool :=
  PrimFloat.eqb (PrimFloat.abs f) infinity.

(** [float(z)] for a Python [int]: [OverflowError] past the binary64 range. *)
Definition float_of_int (z : Z) : result float :=
  let f := float_of_ratio (z <? 0) (Z.abs z) 1 in
  if is_inf f then Raise OverflowError else Ok f.

(** [a / b] on Python [int]s: the correctly rounded quotient. *)
Definition int_truediv (a b : Z) : result float :=
  if b =? 0 then Raise ZeroDivisionError
  else
    let f := float_of_ratio (xorb (a <? 0) (b <? 0)) (Z.abs a) (Z.abs b) in
    if is_inf f then Raise OverflowError else Ok f.

(** [a / b] on Python [float]s. *)
Definition float_truediv (a b : float) : result float :=
  if PrimFloat.eqb b 0 then Raise ZeroDivisionError else Ok (PrimFloat.div a b).

(** The conversion of an integer array element to [float64]. *)
Definition float64_of_int (z : Z) : float :=
  float_of_ratio (z <? 0) (Z.abs z) 1.

(** [float(s)] *)
Definition to_lower (c : ascii) : ascii :=
  let n := N_of_ascii c in
  if ((65 <=? n) && (n <=? 90))%N then ascii_of_N (n + 32) else c.

Fixpoint lower (s : string) : string :=
  match s with
  | EmptyString => EmptyString
  | String c s' => String (to_lower c) (lower s')
  end.

Fixpoint strip_underscores (prev : ascii) (s : string) : option string :=
  match s with
  | EmptyString => if ascii_eqb prev "_" then None else Some EmptyString
  | String c s' =>
      if ascii_eqb c "_"
      then (if is_digit prev then strip_underscores c s' else None)
      else if ascii_eqb prev "_" && negb (is_digit c) then None
      else String c <$> strip_underscores c s'
  end.

(** A run of digits: the accumulated value, the number of digits, the rest. *)
Fixpoint take_digits (acc n : Z) (s : string) : Z * Z * string :=
  match s with
  | EmptyString => (acc, n, s)
  | String c s' =>
      if is_digit c then take_digits (10 * acc + digit_val c) (n + 1) s'
      else (acc, n, s)
  end.

(** [digits [. digits] [(e|E) [sign] digits]] as [(m, e)], for [m * 10^e]. *)
Definition parse_decimal (s : string) : option (Z * Z) :=
  let '(ip, n1, r1) := take_digits 0 0 s in
  let '(m, n2, r2) :=
    match r1 with
    | String "." r => take_digits ip 0 r
    | _ => (ip, 0, r1)
    end in
  if n1 + n2 =? 0 then None
  else match r2 with
       | EmptyString => Some (m, - n2)
       | String c r3 =>
           if ascii_eqb (to_lower c) "e" then
             let '(eneg, r4) :=
               match r3 with
               | String "+" r => (false, r)
               | String "-" r => (true, r)
               | _ => (false, r3)
               end in
             let '(ex, n3, r5) := take_digits 0 0 r4 in
             if (n3 =? 0) || negb (is_empty r5) then None
             else Some (m, (if eneg then - ex else ex) - n2)
           else None
       end.

Definition float_literal (s : string) : option float :=
  t ← (let t := strip s in
       if contains "_" t then strip_underscores "000" t else Some t);
  let '(neg, body) :=
    match t with
    | String "+" r => (false, r)
    | String "-" r => (true, r)
    | _ => (false, t)
    end in
  let lb := lower body in
  if bool_decide (lb = "inf") || bool_decide (lb = "infinity")
  then Some (if neg then neg_infinity else infinity)
  else if bool_decide (lb = "nan") then Some nan
  else
    '(m, e) ← parse_decimal body;
    Some (if e <? 0 then float_of_ratio neg m (10 ^ (- e))
          else float_of_ratio neg (m * 10 ^ e) 1).

Definition py_float (s : string) : result float :=
  match float_literal s with
  | Some f => Ok f
  | None => Raise (ValueError InvalidFloatLiteral)
  end.

(** ** The data model *)

(** A Python [dict] whose values are all [int]s. *)
Abbreviation int_dict := (gmap string Z).

(** The result of [parse_imrotbl]: the probe readout (gain) table. *)
Record imro_table : Type := {
  probe_type : Z;
  num_channels : Z;
  channels : list int_dict
}.

Record chan_entry : Type := {
  ce_name : string;
  ce_channel : Z;
  ce_order : Z
}.

(** The result of [parse_snschanmap]. *)
Record chan_map : Type := {
  cm_header : int_dict;
  channel_map : list chan_entry
}.

Record electrode : Type := {
  el_shank : Z;
  el_x : Z;
  el_z : Z;
  el_used : bool
}.

Record geom_header : Type := {
  part_number : string;
  shank_count : Z;
  shank_spacing : Z;
  per_shank_width : Z
}.

(** The result of [parse_snsgeommap]. *)
Record geom_map : Type := {
  gm_header : geom_header;
  electrodes : list electrode
}.

(** A value of the metadata dictionary. *)
Inductive pyval : Type :=
  | VInt (n : Z)
  | VFloat (f : float)
  | VStr (s : string)
  | VDict (d : int_dict)
  | VImro (t : imro_table)
  | VChanMap (m : chan_map)
  | VGeomMap (g : geom_map).

Abbreviation metadata := (gmap string pyval).

(** ** [parse_imrotbl] *)

(** The first [")"] of [s] when no newline comes before it: the text before
    it and the text after it ([.*?] does not cross a newline). *)
Fixpoint lazy_group (s : string) : option (string * string) :=
  match s with
  | EmptyString => None
  | String c s' =>
      if ascii_eqb c ")" then Some (EmptyString, s')
      else if ascii_eqb c "010" then None
      else match lazy_group s' with
           | Some (a, b) => Some (String c a, b)
           | None => None
           end
  end.

(** A left-to-right scan for the non-overlapping matches of a pattern that
    starts with ["("]: [body] matches the rest of the pattern right after
    the parenthesis and returns what the match yields and the number of
    characters it spans after the parenthesis.  [skip] counts the characters
    of the last match still to be passed over. *)
Fixpoint scan_groups {A : Type} (body : string → option (A * nat))
    (skip : nat) (s : string) : list A :=
  match s with
  | EmptyString => []
  | String c s' =>
      match skip with
      | S k => scan_groups body k s'
      | O =>
          if ascii_eqb c "("
          then match body s' with
               | Some (a, n) => a :: scan_groups body n s'
               | None => scan_groups body 0 s'
               end
          else scan_groups body 0 s'
      end
  end.

(** [re.findall(r'\((.*?)\)', value)] *)
Definition findall_lazy_groups (value : string) : list string :=
  scan_groups
    (fun s => match lazy_group s with
              | Some (a, _) => Some (a, S (String.length a))
              | None => None
              end)
    0 value.

(** [a, b = map(int, l)]: [map] is lazy, so the conversions run in order
    as the unpacking asks for the items, one more than it needs. *)
Definition unpack2_int (l : list string) : result (Z * Z) :=
  match l with
  | [] => Raise (ValueError (UnpackNotEnough 2 0))
  | [a] => _ ← py_int a; Raise (ValueError (UnpackNotEnough 2 1))
  | [a; b] => x ← py_int a; y ← py_int b; Ok (x, y)
  | a :: b :: c :: _ =>
      _ ← py_int a; _ ← py_int b; _ ← py_int c;
      Raise (ValueError (UnpackTooMany 2))
  end.

Definition np1_types : list Z :=
  [0; 1020; 1030; 1100; 1120; 1121; 1122; 1123; 1200; 1300].
Definition np2_single_types : list Z := [21; 2003; 2004].
Definition np2_multi_types : list Z := [24; 2013; 2014].

Definition mem (x : Z) (l : list Z) : bool := bool_decide (x ∈ l).

(** The body of the loop over the entries: the channel list after the entry
    whose integers are [channel_data]. *)
Definition imro_append (probe_type : Z) (channel_data : list Z)
    (channels : list int_dict) : list int_dict :=
  if mem probe_type np1_types then
    match channel_data with
    | [c0; c1; c2; c3; c4; c5] =>
        channels ++ [list_to_map
          [("channel", c0); ("bank", c1); ("refid", c2);
           ("apgain", c3); ("lfgain", c4); ("apfilt", c5)]]
    | _ => channels
    end
  else if mem probe_type np2_single_types then
    match channel_data with
    | [c0; c1; c2; c3] =>
        channels ++ [list_to_map
          [("channel", c0); ("bank_mask", c1); ("refid", c2);
           ("electrode", c3); ("apgain", 80)]]
    | _ => channels
    end
  else if mem probe_type np2_multi_types then
    match channel_data with
    | [c0; c1; c2; c3; c4] =>
        channels ++ [list_to_map
          [("channel", c0); ("shank", c1); ("bank", c2); ("refid", c3);
           ("electrode", c4); ("apgain", 80)]]
    | _ => channels
    end
  else channels.

Fixpoint imro_loop (probe_type : Z) (channels : list int_dict)
    (entries : list string) : result (list int_dict) :=
  match entries with
  | [] => Ok channels
  | entry :: rest =>
      channel_data ← map_result py_int (split_ws entry);
      imro_loop probe_type (imro_append probe_type channel_data channels) rest
  end.

Definition parse_imrotbl (value : string) : result imro_table :=
  match findall_lazy_groups value with
  | [] => Raise IndexError
  | header :: rest =>
      '(probe_type, num_channels) ← unpack2_int (split_char "," header);
      channels ← imro_loop probe_type [] rest;
      Ok {| probe_type := probe_type;
            num_channels := num_channels;
            channels := channels |}
  end.

(** ** [parse_snschanmap] *)

(** The longest run of digits at the head of [s] and what follows it. *)
Fixpoint digit_run (s : string) : string * string :=
  match s with
  | EmptyString => (EmptyString, EmptyString)
  | String c s' =>
      if is_digit c then let '(d, r) := digit_run s' in (String c d, r)
      else (EmptyString, s)
  end.

(** [\d+] *)
Definition digits1 (s : string) : option (string * string) :=
  let '(d, r) := digit_run s in
  if is_empty d then None else Some (d, r).

(** [n + 1] groups [(\d+)] separated by commas. *)
Fixpoint comma_digits (n : nat) (s : string) : option (list string * string) :=
  '(d, r) ← digits1 s;
  match n with
  | O => Some ([d], r)
  | S n' =>
      match r with
      | String "," r' => '(ds, r'') ← comma_digits n' r'; Some (d :: ds, r'')
      | _ => None
      end
  end.

(** [re.match] of a parenthesised header of [n + 1] comma-separated runs of
    digits at the start of [value]: the groups. *)
Definition match_header (n : nat) (value : string) : option (list string) :=
  match value with
  | String "(" r =>
      '(ds, r') ← comma_digits n r;
      match r' with
      | String ")" _ => Some ds
      | _ => None
      end
  | _ => None
  end.

(** The text before the first [";"] of [s], when it is not empty, and the
    text after that [";"]: the greedy [[^;]+] followed by [;]. *)
Fixpoint upto_semicolon (s : string) : option (string * string) :=
  match s with
  | EmptyString => None
  | String c s' =>
      if ascii_eqb c ";" then Some (EmptyString, s')
      else match upto_semicolon s' with
           | Some (a, b) => Some (String c a, b)
           | None => None
           end
  end.

(** The pattern [([^;]+);(\d+):(\d+)\)] right after an opening parenthesis. *)
Definition chan_entry_body (s : string)
    : option ((string * string * string) * nat) :=
  '(name, r1) ← upto_semicolon s;
  if is_empty name then None
  else
    '(ch, r2) ← digits1 r1;
    match r2 with
    | String ":" r3 =>
        '(ord, r4) ← digits1 r3;
        match r4 with
        | String ")" _ =>
            Some ((name, ch, ord),
                  (String.length name + 1 + String.length ch + 1
                   + String.length ord + 1)%nat)
        | _ => None
        end
    | _ => None
    end.

Definition chan_header (value : string) : result int_dict :=
  match match_header 4 value with
  | Some [g1; g2; g3; g4; g5] =>
      mn ← py_int g1; ma ← py_int g2; mux ← py_int g3;
      xa ← py_int g4; xd ← py_int g5;
      Ok (list_to_map
            [("MN_channels", mn); ("MA_channels", ma); ("mux_channels", mux);
             ("XA_channels", xa); ("XD_words", xd)])
  | _ =>
      match match_header 2 value with
      | Some [g1; g2; g3] =>
          ap ← py_int g1; lf ← py_int g2; sy ← py_int g3;
          Ok (list_to_map
                [("AP_channels", ap); ("LF_channels", lf); ("SY_channels", sy)])
      | _ => Raise (ValueError InvalidChanMapHeader)
      end
  end.

Definition parse_snschanmap (value : string) : result chan_map :=
  header ← chan_header value;
  entries ← map_result
    (fun '(name, ch, ord) =>
       c ← py_int ch; o ← py_int ord;
       Ok {| ce_name := name; ce_channel := c; ce_order := o |})
    (scan_groups chan_entry_body 0 value);
  Ok {| cm_header := header; channel_map := entries |}.

(** ** [parse_snsgeommap] *)

(** The text before the first [")"] of [s] and the text after it. *)
Fixpoint upto_close (s : string) : option (string * string) :=
  match s with
  | EmptyString => None
  | String c s' =>
      if ascii_eqb c ")" then Some (EmptyString, s')
      else match upto_close s' with
           | Some (a, b) => Some (String c a, b)
           | None => None
           end
  end.

(** [re.findall(r'\(([^)]+)\)', value)] *)
Definition findall_groups (value : string) : list string :=
  scan_groups
    (fun s => match upto_close s with
              | Some (a, _) =>
                  if is_empty a then None else Some (a, S (String.length a))
              | None => None
              end)
    0 value.

(** [s, x, z, u = map(int, l)] *)
Definition unpack4_int (l : list string) : result (Z * Z * Z * Z) :=
  match l with
  | [] => Raise (ValueError (UnpackNotEnough 4 0))
  | [a] => _ ← py_int a; Raise (ValueError (UnpackNotEnough 4 1))
  | [a; b] =>
      _ ← py_int a; _ ← py_int b; Raise (ValueError (UnpackNotEnough 4 2))
  | [a; b; c] =>
      _ ← py_int a; _ ← py_int b; _ ← py_int c;
      Raise (ValueError (UnpackNotEnough 4 3))
  | [a; b; c; d] =>
      s ← py_int a; x ← py_int b; z ← py_int c; u ← py_int d;
      Ok (s, x, z, u)
  | a :: b :: c :: d :: e :: _ =>
      _ ← py_int a; _ ← py_int b; _ ← py_int c; _ ← py_int d; _ ← py_int e;
      Raise (ValueError (UnpackTooMany 4))
  end.

(** [l[i]] on a list: [IndexError] out of range (for [0 <= i]). *)
Definition list_getitem {A : Type} (l : list A) (i : nat) : result A :=
  match l !! i with
  | Some a => Ok a
  | None => Raise IndexError
  end.

Definition parse_snsgeommap (value : string) : result geom_map :=
  match findall_groups value with
  | [] => Raise (ValueError InvalidGeomMap)
  | first :: rest =>
      let header := split_char "," first in
      geom_data ← map_result
        (fun entry =>
           '(s, x, z, u) ← unpack4_int (split_char ":" entry);
           Ok {| el_shank := s; el_x := x; el_z := z;
                 el_used := negb (u =? 0) |})
        rest;
      pn ← list_getitem header 0;
      sc ← list_getitem header 1 ≫= py_int;
      ss ← list_getitem header 2 ≫= py_int;
      pw ← list_getitem header 3 ≫= py_int;
      Ok {| gm_header := {| part_number := pn; shank_count := sc;
                            shank_spacing := ss; per_shank_width := pw |};
            electrodes := geom_data |}
  end.

(** ** [read_meta] *)

Abbreviation filesystem := (gmap string string).

(** The lines a text file yields when iterated over: ["\n"], ["\r"] and
    ["\r\n"] end a line; the terminator is left out (the caller strips the
    line).  [after_cr] tells that the previous character was ["\r"]. *)
Fixpoint file_lines (after_cr : bool) (text : string) : list string :=
  match text with
  | EmptyString => []
  | String c s' =>
      if ascii_eqb c "010" then
        if after_cr then file_lines false s'
        else EmptyString :: file_lines false s'
      else if ascii_eqb c "013" then EmptyString :: file_lines true s'
      else match file_lines false s' with
           | h :: t => String c h :: t
           | [] => [String c EmptyString]
           end
  end.

(** [{'MN': values[0], 'MA': values[1], ...}] for the keys [names]. *)
Fixpoint named_counts (names : list string) (i : nat) (values : list Z)
    : result int_dict :=
  match names with
  | [] => Ok ∅
  | n :: names' =>
      v ← list_getitem values i;
      d ← named_counts names' (S i) values;
      Ok (<[n := v]> d)
  end.

(** The value stored for [key], parsed from the text [value]. *)
Definition parse_value (key value : string) : result pyval :=
  if bool_decide (key = "imroTbl") then VImro <$> parse_imrotbl value
  else if bool_decide (key = "snsChanMap") then VChanMap <$> parse_snschanmap value
  else if bool_decide (key = "snsGeomMap") then VGeomMap <$> parse_snsgeommap value
  else if bool_decide (key = "acqMnMaXaDw") || bool_decide (key = "snsMnMaXaDw") then
    values ← map_result py_int (split_char "," value);
    VDict <$> named_counts ["MN"; "MA"; "XA"; "DW"] 0 values
  else if bool_decide (key = "snsApLfSy") then
    values ← map_result py_int (split_char "," value);
    VDict <$> named_counts ["AP"; "LF"; "SY"] 0 values
  else
    match int_literal value with
    | Some n => Ok (VInt n)
    | None =>
        match float_literal value with
        | Some f => Ok (VFloat f)
        | None => Ok (VStr value)
        end
    end.

(** One line of the file: the key under which it is stored and its value. *)
Definition parse_line (line : string) : result (string * pyval) :=
  match split_once "=" (strip line) with
  | None => Raise (ValueError (UnpackNotEnough 2 1))
  | Some (key, value) =>
      let key := match key with
                 | String "~" key' => key'
                 | _ => key
                 end in
      v ← parse_value key value;
      Ok (key, v)
  end.

(** The loop over the lines, from the dictionary built so far. *)
Fixpoint read_meta_lines (meta : metadata) (lines : list string)
    : result metadata :=
  match lines with
  | [] => Ok meta
  | line :: rest =>
      '(key, v) ← parse_line line;
      read_meta_lines (<[key := v]> meta) rest
  end.

(** The parse of the text of a metadata file. *)
Definition parse_meta (text : string) : result metadata :=
  read_meta_lines ∅ (file_lines false text).

Definition read_meta (fs : filesystem) (filename : string) : result metadata :=
  let filename_meta := replace ".bin" ".meta" filename in
  match fs !! filename_meta with
  | None => Raise (FileNotFoundError filename_meta)
  | Some text => parse_meta text
  end.

(** ** Channel topology: [get_channel_idx] and [get_gain] *)

(** A channel selection: a [slice(start, stop)] or an index array. *)
Inductive selection : Type :=
  | Slice (start stop : Z)
  | Index (idx : list Z).

(** [v == s] for a string [s]. *)
Definition is_str (v : pyval) (s : string) : bool :=
  match v with
  | VStr s' => bool_decide (s' = s)
  | _ => false
  end.

(** [v[k]] where an [int] is expected, for a key [k] that the record
    dictionaries do not have (the sub-count names). *)
Definition subscript (v : pyval) (k : string) : result Z :=
  match v with
  | VDict d => getitem d k
  | VImro _ | VChanMap _ | VGeomMap _ => Raise (KeyError k)
  | VInt _ | VFloat _ | VStr _ => Raise TypeError
  end.

Definition get_channel_idx (meta : metadata) (analog : bool) : result selection :=
  type_this ← getitem meta "typeThis";
  if is_str type_this "imec" then
    n_ap ← getitem meta "snsApLfSy" ≫= (λ d, subscript d "AP");
    n_lf ← getitem meta "snsApLfSy" ≫= (λ d, subscript d "LF");
    n_sy ← getitem meta "snsApLfSy" ≫= (λ d, subscript d "SY");
    if analog then Ok (Slice 0 (n_ap + n_lf))
    else Ok (Slice (n_ap + n_lf) (n_ap + n_lf + n_sy))
  else if is_str type_this "nidq" then
    n_mn ← getitem meta "snsMnMaXaDw" ≫= (λ d, subscript d "MN");
    n_ma ← getitem meta "snsMnMaXaDw" ≫= (λ d, subscript d "MA");
    n_xa ← getitem meta "snsMnMaXaDw" ≫= (λ d, subscript d "XA");
    n_dw ← getitem meta "snsMnMaXaDw" ≫= (λ d, subscript d "DW");
    if analog then Ok (Slice 0 (n_mn + n_ma + n_xa))
    else Ok (Slice (n_mn + n_ma + n_xa) (n_mn + n_ma + n_xa + n_dw))
  else Raise (ValueError UnrecognizedRecordingType).

(** A one-dimensional NumPy array: 64-bit integers or [float64]. *)
Inductive ndarray : Type :=
  | IntArray (l : list Z)
  | FloatArray (l : list float).

(** [np.array(l)] for a list of Python [int]s that fit 64 bits; the empty
    list gives an empty [float64] array. *)
Definition np_array (l : list Z) : ndarray :=
  match l with
  | [] => FloatArray []
  | _ => IntArray l
  end.

(** The bounds of [a[start:stop]] on an axis of length [n]. *)
Definition clamp (n i : Z) : Z :=
  if i <? 0 then Z.max (i + n) 0 else Z.min i n.

Definition in_slice (n start stop i : Z) : bool :=
  (clamp n start <=? i) && (i <? clamp n stop).

(** The positions [0, 1, ...] of a list, as integers. *)
Definition positions {A : Type} (l : list A) : list Z :=
  Z.of_nat <$> seq 0 (length l).

(** [a[start:stop]] *)
Definition slice_list {A : Type} (start stop : Z) (l : list A) : list A :=
  let n := Z.of_nat (length l) in
  snd <$> filter (λ p, in_slice n start stop (fst p) = true) (zip (positions l) l).

(** [a[start:stop] = v] *)
Definition slice_assign {A : Type} (start stop : Z) (v : A) (l : list A) : list A :=
  let n := Z.of_nat (length l) in
  (λ p, if in_slice n start stop (fst p) then v else snd p) <$> zip (positions l) l.

(** [ch in v], the key test of [get_gain] on [meta['imroTbl']]. *)
Definition has_channels (v : pyval) : result bool :=
  match v with
  | VImro _ => Ok true
  | VDict d => Ok (bool_decide (is_Some (d !! "channels")))
  | VChanMap _ | VGeomMap _ => Ok false
  | VStr s => Ok (contains "channels" s)
  | VInt _ | VFloat _ => Raise TypeError
  end.

(** [v['channels']], as the list the comprehension iterates over. *)
Definition get_channels (v : pyval) : result (list int_dict) :=
  match v with
  | VImro t => Ok (channels t)
  | _ => Raise TypeError
  end.

(** [v.endswith(suffix)] *)
Definition py_endswith (v : pyval) (suffix : string) : result bool :=
  match v with
  | VStr s => Ok (endswith suffix s)
  | _ => Raise AttributeError
  end.

(** The conversion of a dictionary value stored into a [float64] array. *)
Definition to_float64 (v : pyval) : result float :=
  match v with
  | VInt n => float_of_int n
  | VFloat f => Ok f
  | VStr s => py_float s
  | _ => Raise TypeError
  end.

(** [np.ones(n)] *)
Definition np_ones (n : Z) : result (list float) :=
  if n <? 0 then Raise (ValueError NegativeDimensions)
  else Ok (replicate (Z.to_nat n) 1%float).

Definition get_gain (meta : metadata) : result ndarray :=
  type_this ← getitem meta "typeThis";
  if is_str type_this "imec" then
    missing ← match meta !! "imroTbl" with
              | None => Ok true
              | Some t => negb <$> has_channels t
              end;
    if missing : bool then Raise (ValueError MissingImro)
    else
      ap ← getitem meta "fileName" ≫= (λ f, py_endswith f ".ap.bin");
      if ap : bool then
        chans ← getitem meta "imroTbl" ≫= get_channels;
        np_array <$> map_result (λ channel, getitem channel "apgain") chans
      else
        lf ← getitem meta "fileName" ≫= (λ f, py_endswith f ".lf.bin");
        if lf : bool then
          chans ← getitem meta "imroTbl" ≫= get_channels;
          np_array <$> map_result (λ channel, getitem channel "lfgain") chans
        else
          _ ← getitem meta "filename";
          Raise (ValueError UnrecognizedImecFile)
  else if is_str type_this "nidq" then
    if bool_decide (meta !! "snsMnMaXaDw" = None)
       || bool_decide (meta !! "niMNGain" = None)
       || bool_decide (meta !! "niMAGain" = None)
    then Raise (ValueError MissingNidq)
    else
      n_mn ← getitem meta "snsMnMaXaDw" ≫= (λ d, subscript d "MN");
      n_ma ← getitem meta "snsMnMaXaDw" ≫= (λ d, subscript d "MA");
      n_xa ← getitem meta "snsMnMaXaDw" ≫= (λ d, subscript d "XA");
      n_dw ← getitem meta "snsMnMaXaDw" ≫= (λ d, subscript d "DW");
      gains ← np_ones (n_mn + n_ma + n_xa + n_dw);
      mn_gain ← getitem meta "niMNGain" ≫= to_float64;
      let gains := slice_assign 0 n_mn mn_gain gains in
      ma_gain ← getitem meta "niMAGain" ≫= to_float64;
      let gains := slice_assign n_mn (n_mn + n_ma) ma_gain gains in
      Ok (FloatArray gains)
  else Raise (ValueError UnrecognizedRecordingType).

(** ** [get_uV_per_bit] *)

(** Python truth value of a dictionary value. *)
Definition truthy (v : pyval) : bool :=
  match v with
  | VInt n => negb (n =? 0)
  | VFloat f => negb (PrimFloat.eqb f 0)
  | VStr s => negb (is_empty s)
  | VDict d => negb (bool_decide (d = ∅))
  | VImro _ | VChanMap _ | VGeomMap _ => true
  end.

(** [a or b], on results of [dict.get] ([None] is Python's [None]). *)
Definition py_or (a b : option pyval) : option pyval :=
  match a with
  | Some v => if truthy v then a else b
  | None => b
  end.

(** A Python number. *)
Inductive number : Type :=
  | NInt (n : Z)
  | NFloat (f : float).

Definition as_number (v : option pyval) : result number :=
  match v with
  | Some (VInt n) => Ok (NInt n)
  | Some (VFloat f) => Ok (NFloat f)
  | _ => Raise TypeError
  end.

(** [a * b] on Python numbers. *)
Definition py_mul (a b : number) : result number :=
  match a, b with
  | NInt x, NInt y => Ok (NInt (x * y))
  | NInt x, NFloat y => fx ← float_of_int x; Ok (NFloat (PrimFloat.mul fx y))
  | NFloat x, NInt y => fy ← float_of_int y; Ok (NFloat (PrimFloat.mul x fy))
  | NFloat x, NFloat y => Ok (NFloat (PrimFloat.mul x y))
  end.

(** [a / b] on Python numbers. *)
Definition py_truediv (a b : number) : result float :=
  match a, b with
  | NInt x, NInt y => int_truediv x y
  | NInt x, NFloat y => fx ← float_of_int x; float_truediv fx y
  | NFloat x, NInt y => fy ← float_of_int y; float_truediv x fy
  | NFloat x, NFloat y => float_truediv x y
  end.

(** The elements of an array as [float64], the cast NumPy makes when the
    other operand is a Python [float]. *)
Definition as_float64 (a : ndarray) : list float :=
  match a with
  | IntArray l => float64_of_int <$> l
  | FloatArray l => l
  end.

(** [x / a] for a Python [float] [x] and an array [a]: a [float64] array. *)
Definition np_rtruediv (x : float) (a : ndarray) : list float :=
  (λ g, PrimFloat.div x g) <$> as_float64 a.

(** [1000000 * AiRangeMax / MaxInt]: a string or [None] among the operands
    ends in a [TypeError] at the division at the latest. *)
Definition full_scale (AiRangeMax MaxInt : option pyval) : result float :=
  r ← as_number AiRangeMax;
  m ← as_number MaxInt;
  x ← py_mul (NInt 1000000) r;
  py_truediv x m.

Definition get_uV_per_bit (meta : metadata) : result (list float) :=
  let AiRangeMax := py_or (meta !! "imAiRangeMax") (meta !! "niAiRangeMax") in
  let MaxInt :=
    py_or (py_or (meta !! "imMaxInt") (meta !! "niMaxInt")) (Some (VInt 512)) in
  gains ← get_gain meta;
  x ← full_scale AiRangeMax MaxInt;
  Ok (np_rtruediv x gains).

(** ** [read_bin] *)

(** The integer element types of a sample file. *)
Inductive dtype : Type :=
  | int8 | uint8 | int16 | uint16 | int32 | uint32 | int64 | uint64.

Definition itemsize (dt : dtype) : Z :=
  match dt with
  | int8 | uint8 => 1
  | int16 | uint16 => 2
  | int32 | uint32 => 4
  | int64 | uint64 => 8
  end.

Definition is_signed (dt : dtype) : bool :=
  match dt with
  | int8 | int16 | int32 | int64 => true
  | uint8 | uint16 | uint32 | uint64 => false
  end.

(** The bytes of a file. *)
Definition file_bytes (content : string) : list Z :=
  (λ c, Z.of_N (N_of_ascii c)) <$> list_ascii_of_string content.

(** The element stored in the bytes [bs], least significant byte first. *)
Fixpoint le_unsigned (bs : list Z) : Z :=
  match bs with
  | [] => 0
  | b :: bs' => b + 256 * le_unsigned bs'
  end.

Definition decode (dt : dtype) (bs : list Z) : Z :=
  let u := le_unsigned bs in
  let half := 2 ^ (8 * itemsize dt - 1) in
  if is_signed dt && (half <=? u) then u - 2 * half else u.

(** [k] consecutive chunks of [n] items each. *)
Fixpoint chunks {A : Type} (n k : nat) (l : list A) : list (list A) :=
  match k with
  | O => []
  | S k' => take n l :: chunks n k' (drop n l)
  end.

(** A two-dimensional array: the rows, and the length of the second axis
    (which the rows do not tell when there are none). *)
Record array2 (A : Type) : Type := {
  ncols : nat;
  rows : list (list A)
}.
Arguments ncols {A} _.
Arguments rows {A} _.

(** [np.memmap(filename, dtype, 'r', shape=(n_sample, n_channel), offset)]:
    the window of the file as a matrix.  It is taken by its contract: the
    window has to lie in the file; which exception a bad window raises, and
    what the operating system makes of a window of no bytes, is not
    modelled. *)
Definition memmap (content : string) (dt : dtype) (n_sample n_channel offset : Z)
    : result (array2 Z) :=
  if (n_sample <? 0) || (n_channel <? 0) then Raise (ValueError NegativeDimensions)
  else if (offset <? 0)
          || (Z.of_nat (String.length content)
              <? offset + n_sample * n_channel * itemsize dt)
  then Raise (ValueError MmapOutOfFile)
  else
    let w := Z.to_nat (itemsize dt) in
    let window := drop (Z.to_nat offset) (file_bytes content) in
    let elems := decode dt <$> chunks w (Z.to_nat (n_sample * n_channel)) window in
    Ok {| ncols := Z.to_nat n_channel;
          rows := chunks (Z.to_nat n_channel) (Z.to_nat n_sample) elems |}.

(** [a[idx]] for an index array on an axis of length [length l]: negative
    indices count from the end, [IndexError] out of bounds. *)
Definition take_indices {A : Type} (idx : list Z) (l : list A) (n : Z)
    : result (list A) :=
  map_result
    (λ i, if (i <? - n) || (n <=? i) then Raise IndexError
          else list_getitem l (Z.to_nat (if i <? 0 then i + n else i)))
    idx.

(** [a[sel]] on a one-dimensional array. *)
Definition select {A : Type} (sel : selection) (l : list A) : result (list A) :=
  match sel with
  | Slice start stop => Ok (slice_list start stop l)
  | Index idx => take_indices idx l (Z.of_nat (length l))
  end.

(** The number of columns [a[:, sel]] has, on an axis of length [n]. *)
Definition selected_width (sel : selection) (n : nat) : result nat :=
  length <$> select sel (seq 0 n).

(** [a[:, sel]] *)
Definition select_columns {A : Type} (sel : selection) (a : array2 A)
    : result (array2 A) :=
  width ← selected_width sel (ncols a);
  rs ← map_result (select sel) (rows a);
  Ok {| ncols := width; rows := rs |}.

Definition read_bin (fs : filesystem) (filename : string) (n_channel : Z)
    (dt : dtype) (channel_idx : option selection)
    (sample_range : option (Z * Z)) : result (array2 Z) :=
  match fs !! filename with
  | None => Raise (FileNotFoundError filename)
  | Some content =>
      let channel_idx := default (Slice 0 n_channel) channel_idx in
      if n_channel * itemsize dt =? 0 then Raise ZeroDivisionError
      else
        let n_sample_file :=
          Z.of_nat (String.length content) `div` (n_channel * itemsize dt) in
        let sample_range := default (0, n_sample_file) sample_range in
        let offset := sample_range.1 * n_channel * itemsize dt in
        let n_sample := sample_range.2 - sample_range.1 in
        data ← memmap content dt n_sample n_channel offset;
        select_columns channel_idx data
  end.


(** ** [read_analog] *)

(** The binary and the metadata file names that go with [filename]. *)
Definition file_pair (fs : filesystem) (filename : string)
    : result (string * string) :=
  '(bin_fn, meta_fn) ←
    (if endswith ".meta" filename
     then Ok (replace ".meta" ".bin" filename, filename)
     else if endswith ".bin" filename
     then Ok (filename, replace ".bin" ".meta" filename)
     else Raise (ValueError BadFilename));
  if bool_decide (fs !! bin_fn = None) then Raise (FileNotFoundError bin_fn)
  else if bool_decide (fs !! meta_fn = None) then Raise (FileNotFoundError meta_fn)
  else Ok (bin_fn, meta_fn).

(** A dictionary value used as a channel count. *)
Definition as_int (v : pyval) : result Z :=
  match v with
  | VInt n => Ok n
  | _ => Raise TypeError
  end.

(** [data * scale[np.newaxis, :]]: the integer matrix times the row vector,
    with NumPy's broadcasting on the second axis. *)
Definition scale_columns (data : array2 Z) (scale : list float)
    : result (array2 float) :=
  let times (d : Z) (s : float) := PrimFloat.mul (float64_of_int d) s in
  if bool_decide (ncols data = length scale) then
    Ok {| ncols := ncols data;
          rows := (λ row : list Z, zip_with times row scale) <$> rows data |}
  else if bool_decide (length scale = 1%nat) then
    Ok {| ncols := ncols data;
          rows := (λ row : list Z,
                     (λ d, times d (default 0%float (head scale))) <$> row)
                  <$> rows data |}
  else if bool_decide (ncols data = 1%nat) then
    Ok {| ncols := length scale;
          rows := (λ row : list Z,
                     (λ s, times (default 0 (head row)) s) <$> scale)
                  <$> rows data |}
  else Raise (ValueError CannotBroadcast).

Definition read_analog (fs : filesystem) (filename : string) (dt : dtype)
    (channel_idx : option selection) (sample_range : option (Z * Z))
    : result (array2 float) :=
  '(bin_fn, meta_fn) ← file_pair fs filename;
  meta ← read_meta fs meta_fn;
  n_channel ← getitem meta "nSavedChans";
  channel_idx ← match channel_idx with
                | None => get_channel_idx meta true
                | Some sel => Ok sel
                end;
  uV_per_bit ← get_uV_per_bit meta;
  n ← as_int n_channel;
  data ← read_bin fs bin_fn n dt (Some channel_idx) sample_range;
  scale ← select channel_idx uV_per_bit;
  scale_columns data scale.

(** ** [read_digital] *)

(** One row of the event table. *)
Record event : Type := {
  ev_time : float;
  ev_sample : Z;
  ev_chan : Z;
  ev_type : Z
}.

(** The bits of an element of [nbits] bits, least significant first: the
    bytes of the element in memory order, each unpacked from its low bit. *)
Definition element_bits (nbits : nat) (v : Z) : list Z :=
  (λ i, Z.b2z (Z.testbit v (Z.of_nat i))) <$> seq 0 nbits.

(** [np.unpackbits(data.view('uint8'), bitorder='little').reshape(-1, width)]
    where [width] is the number of bits of a row. *)
Definition unpack_rows (dt : dtype) (data : array2 Z) : result (list (list Z)) :=
  let nbits := Z.to_nat (itemsize dt * 8) in
  if bool_decide ((ncols data * nbits)%nat = 0%nat)
  then Raise (ValueError CannotReshape)
  else Ok ((λ row, concat (element_bits nbits <$> row)) <$> rows data).

(** The columns where [next - prev], taken on 8-bit unsigned integers, is
    not zero, in ascending order. *)
Definition row_changes (prev next : list Z) : list nat :=
  fst <$> filter (λ p, snd p ≠ 0)
                 (zip (seq 0 (length prev))
                      (zip_with (λ a b, (b - a) `mod` 256) prev next)).

(** [np.where(np.diff(data_bits, axis=0) != 0)]: the positions of the
    non-zero differences in row-major order; [i] is the index of the first
    row of [data_bits]. *)
Fixpoint where_diff (i : nat) (data_bits : list (list Z)) : list (nat * nat) :=
  match data_bits with
  | prev :: rest =>
      match rest with
      | next :: _ => ((λ j, (i, j)) <$> row_changes prev next) ++ where_diff (S i) rest
      | [] => []
      end
  | [] => []
  end.

(** [data_bits[i, j]] *)
Definition bit_at (data_bits : list (list Z)) (i j : nat) : Z :=
  default 0 (data_bits !! i ≫= (.!! j)).

(** The event table from the unpacked bits: one row per change. *)
Definition events_of_bits (sample_rate : float) (data_bits : list (list Z))
    : list event :=
  (λ ch : nat * nat,
     let timestamp := Z.of_nat ch.1 + 1 in
     {| ev_time := PrimFloat.div (float64_of_int timestamp) sample_rate;
        ev_sample := timestamp;
        ev_chan := Z.of_nat ch.2;
        ev_type := bit_at data_bits (ch.1 + 1) ch.2 |})
  <$> where_diff 0 data_bits.

(** The divisor of [timestamps / sample_rate]. *)
Definition rate_float (sample_rate : option pyval) : result float :=
  match sample_rate with
  | Some (VInt n) => Ok (float64_of_int n)
  | Some (VFloat f) => Ok f
  | _ => Raise TypeError
  end.

Definition read_digital (fs : filesystem) (filename : string) (dt : dtype)
    : result (list event) :=
  '(bin_fn, meta_fn) ← file_pair fs filename;
  meta ← read_meta fs meta_fn;
  n_channel ← getitem meta "nSavedChans";
  let sample_rate := py_or (meta !! "imSampRate") (meta !! "niSampRate") in
  channel_idx ← get_channel_idx meta false;
  n ← as_int n_channel;
  data ← read_bin fs bin_fn n dt (Some channel_idx) None;
  data_bits ← unpack_rows dt data;
  rate ← rate_float sample_rate;
  Ok (events_of_bits rate data_bits).

(** * Definitions used by the statements *)

(** The dictionary the loop builds from the entries of the lines. *)
Definition store_all (meta : metadata) (entries : list (string * pyval)) : metadata :=
  foldl (λ m e, <[e.1 := e.2]> m) meta entries.

(** The probe types [parse_imrotbl] has a layout for. *)
Definition known_probe_types : list Z :=
  np1_types ++ np2_single_types ++ np2_multi_types.

(** The text of a parenthesised group is a sequence of integers separated by
    whitespace. *)
Definition int_tuple (entry : string) : Prop :=
  Forall (λ tok, is_Some (int_literal tok)) (split_ws entry).

(** The channels, out of [n], that a selection takes. *)
Definition channel_indices (sel : selection) (n : nat) : result (list nat) :=
  select sel (seq 0 n).

(** [key] is absent from the metadata or its value is false in Python's
    sense (zero, the empty string). *)
Definition unusable (meta : metadata) (key : string) : Prop :=
  ∀ v, meta !! key = Some v → truthy v = false.

(** The operand [get_uV_per_bit] takes for the voltage range: the value of
    [imAiRangeMax] when it is present and true, else what [niAiRangeMax]
    holds ([None] when it is absent). *)
Definition range_max_rule (meta : metadata) (r : option pyval) : Prop :=
  (∃ v, meta !! "imAiRangeMax" = Some v ∧ truthy v = true ∧ r = Some v)
  ∨ (unusable meta "imAiRangeMax" ∧ r = meta !! "niAiRangeMax").

(** The operand it takes for the largest code: the first of [imMaxInt] and
    [niMaxInt] that is present and true, else 512. *)
Definition max_int_rule (meta : metadata) (m : pyval) : Prop :=
  (meta !! "imMaxInt" = Some m ∧ truthy m = true)
  ∨ (unusable meta "imMaxInt" ∧ meta !! "niMaxInt" = Some m ∧ truthy m = true)
  ∨ (unusable meta "imMaxInt" ∧ unusable meta "niMaxInt" ∧ m = VInt 512).

(** The scale as the specification words it: the range is the value of the
    imec key if the key is present, else that of the nidq key; the largest
    code falls back to 512 when its keys are absent. *)
Definition claimed_range_max (meta : metadata) : option pyval :=
  match meta !! "imAiRangeMax" with
  | Some v => Some v
  | None => meta !! "niAiRangeMax"
  end.

Definition claimed_max_int (meta : metadata) : option pyval :=
  match meta !! "imMaxInt" with
  | Some v => Some v
  | None =>
      match meta !! "niMaxInt" with
      | Some v => Some v
      | None => Some (VInt 512)
      end
  end.

Definition claimed_uV_per_bit (meta : metadata) : result (list float) :=
  gains ← get_gain meta;
  x ← full_scale (claimed_range_max meta) (claimed_max_int meta);
  Ok (np_rtruediv x gains).

(** The strict order of [np.where] on a two-dimensional array: by row, then
    by column. *)
Definition lex_lt (p q : nat * nat) : Prop :=
  (p.1 < q.1)%nat ∨ (p.1 = q.1 ∧ (p.2 < q.2)%nat).

(** Line [j] differs between the rows [i] and [i + 1] of the unpacked bits
    ([np.diff] on 8-bit unsigned integers is not zero there). *)
Definition changed (data_bits : list (list Z)) (i j : nat) : Prop :=
  ∃ a b, data_bits !! i ≫= (.!! j) = Some a
       ∧ data_bits !! S i ≫= (.!! j) = Some b
       ∧ (b - a) `mod` 256 ≠ 0.

(** [data_bits] is the bit matrix [read_digital] unpacks for [filename]. *)
Definition digital_bits (fs : filesystem) (filename : string) (dt : dtype)
    (data_bits : list (list Z)) : Prop :=
  ∃ bin_fn meta_fn meta n sel data,
    file_pair fs filename = Ok (bin_fn, meta_fn)
    ∧ read_meta fs meta_fn = Ok meta
    ∧ meta !! "nSavedChans" = Some (VInt n)
    ∧ get_channel_idx meta false = Ok sel
    ∧ read_bin fs bin_fn n dt (Some sel) None = Ok data
    ∧ unpack_rows dt data = Ok data_bits.



(** The least and the greatest value of an element type. *)
Definition dtype_min (dt : dtype) : Z :=
  if is_signed dt then - 2 ^ (8 * itemsize dt - 1) else 0.

Definition dtype_max (dt : dtype) : Z :=
  if is_signed dt then 2 ^ (8 * itemsize dt - 1) - 1 else 2 ^ (8 * itemsize dt) - 1.

(** The channel record of the 6-field legacy layout for the integers [r]. *)
Definition legacy_record (r : list Z) : int_dict :=
  list_to_map
    [("channel", nth 0 r 0); ("bank", nth 1 r 0); ("refid", nth 2 r 0);
     ("apgain", nth 3 r 0); ("lfgain", nth 4 r 0); ("apfilt", nth 5 r 0)].

(** A non-empty string of decimal digits. *)
Definition digit_string (s : string) : Prop :=
  s ≠ EmptyString ∧ Forall (λ c, is_digit c = true) (list_ascii_of_string s).

(** The line starts neither with whitespace nor with the marker ["~"]. *)
Definition starts_plain (line : string) : Prop :=
  match line with
  | EmptyString => True
  | String c _ => is_space c = false ∧ c ≠ "~"%char
  end.

(** ** Example inputs *)

Definition malformed_text : string :=
  "nSavedChans=385" +:+ String "010" "imSampRate 30000" +:+ String "010" "typeThis=imec".


Definition duplicate_key_text : string :=
  "imSampRate=30000" +:+ String "010" "fileName=run.imec0.ap.bin"
  +:+ String "010" "~imSampRate=30000.5".

Definition unknown_probe_text : string :=
  "(9999,384)(0 0 0 500 250 1)(1 0 0 500 250 1)".

Definition np2_probe_text : string :=
  "(24,384)(0 0 0 0 0)(1 0 0 0 2)(2 1 0 0 4)".

(** An imec recording whose table is the legacy one and whose file name has
    no band suffix. *)
Definition nidq_named_imec_meta : metadata :=
  {[ "typeThis" := VStr "imec";
     "fileName" := VStr "D:/data/run_g0_t0.nidq.bin";
     "imroTbl" := VImro {| probe_type := 0; num_channels := 1;
                           channels := [list_to_map
                             [("channel", 0); ("bank", 0); ("refid", 0);
                              ("apgain", 500); ("lfgain", 250); ("apfilt", 1)]] |} ]}.

Definition legacy_table (gain : Z) : imro_table :=
  {| probe_type := 0; num_channels := 1;
     channels := [list_to_map
       [("channel", 0); ("bank", 0); ("refid", 0);
        ("apgain", gain); ("lfgain", 250); ("apfilt", 1)]] |}.

(** An imec AP-band recording of one channel whose range maximum is 0. *)
Definition zero_range_meta : metadata :=
  {[ "typeThis" := VStr "imec";
     "fileName" := VStr "run.imec0.ap.bin";
     "imroTbl" := VImro (legacy_table 500);
     "imAiRangeMax" := VInt 0;
     "imMaxInt" := VInt 512 ]}.

(** An imec AP-band recording of one analog channel and one sync word:
    range 0.6 V, 512 codes, gain 500; one sample, of value 100. *)
Definition analog_meta_text : string :=
  "typeThis=imec" +:+ String "010" "nSavedChans=2"
  +:+ String "010" "~snsApLfSy=1,0,1"
  +:+ String "010" "imAiRangeMax=0.6"
  +:+ String "010" "imMaxInt=512"
  +:+ String "010" "imSampRate=30000"
  +:+ String "010" "fileName=run.imec0.ap.bin"
  +:+ String "010" "~imroTbl=(0,1)(0 0 0 500 250 1)".

Definition analog_fs : filesystem :=
  {[ "run.imec0.ap.meta" := analog_meta_text;
     "run.imec0.ap.bin" := String "100" (String "000" (String "000" (String "000" ""))) ]}.

(** The dictionary [read_meta] builds from [analog_meta_text]. *)
Definition analog_meta : metadata :=
  match read_meta analog_fs "run.imec0.ap.meta" with
  | Ok meta => meta
  | Raise _ => ∅
  end.

Definition imec_counts_meta : metadata :=
  {[ "typeThis" := VStr "imec";
     "snsApLfSy" := VDict (list_to_map [("AP", 384); ("LF", 0); ("SY", 1)]) ]}.

(** An imec recording of one analog channel and one sync word, three
    samples long; the sync word reads 0, 1, 3. *)
Definition digital_meta_text : string :=
  "typeThis=imec" +:+ String "010" "nSavedChans=2"
  +:+ String "010" "~snsApLfSy=1,0,1"
  +:+ String "010" "imSampRate=30000".

Definition digital_fs : filesystem :=
  {[ "run.imec0.ap.meta" := digital_meta_text;
     "run.imec0.ap.bin" :=
       String "100" (String "000" (String "000" (String "000"
      (String "000" (String "000" (String "001" (String "000"
      (String "000" (String "000" (String "003" (String "000" ""))))))))))) ]}.

Definition digital_events : list event :=
  [ {| ev_time := PrimFloat.div 1 30000; ev_sample := 1; ev_chan := 0; ev_type := 1 |};
    {| ev_time := PrimFloat.div 2 30000; ev_sample := 2; ev_chan := 1; ev_type := 1 |} ].

(** A nidq recording: 2 multiplexed neural, 1 multiplexed auxiliary, 3
    analog channels and 1 digital word. *)
Definition nidq_meta : metadata :=
  {[ "typeThis" := VStr "nidq";
     "snsMnMaXaDw" := VDict (list_to_map [("MN", 2); ("MA", 1); ("XA", 3); ("DW", 1)]);
     "niMNGain" := VInt 200;
     "niMAGain" := VFloat 1.5 ]}.

Definition legacy_probe_text : string :=
  "(0,2)(0 0 0 500 250 1)(1 0 0 250 125 1)".

(** The table [parse_imrotbl] reads from [np2_probe_text]. *)
Definition np2_table : imro_table :=
  match parse_imrotbl np2_probe_text with
  | Ok t => t
  | Raise _ => {| probe_type := 0; num_channels := 0; channels := [] |}
  end.

Definition chan_map_text : string :=
  "(384,384,1)(AP0;0:0)(AP1;1:1)(SY0;768:768)".

Definition ragged_probe_text : string :=
  "(0,3)(0 0 0 500 250 1)(1 0 0 500)(2 0 0 250 125 1)".

(** * Properties *)

(** ** The error monad *)

Lemma bind_Ok {A B : Type} (f : A → result B) (a : A) : (Ok a ≫= f) = f a.
Proof. reflexivity. Qed.

Lemma bind_Raise {A B : Type} (f : A → result B) (e : exn) :
  (Raise e ≫= f) = Raise e.
Proof. reflexivity. Qed.

Lemma bind_Ok_inv {A B : Type} (f : A → result B) (m : result A) (b : B) :
  (m ≫= f) = Ok b → ∃ a, m = Ok a ∧ f a = Ok b.
Proof. destruct m as [a|e]; [eauto | discriminate]. Qed.

Lemma fmap_Ok_inv {A B : Type} (f : A → B) (m : result A) (b : B) :
  f <$> m = Ok b → ∃ a, m = Ok a ∧ b = f a.
Proof. destruct m as [a|e]; [| discriminate]. intros [= <-]. eauto. Qed.

Lemma getitem_Some {V : Type} (d : gmap string V) (k : string) (v : V) :
  d !! k = Some v → getitem d k = Ok v.
Proof. unfold getitem. by intros ->. Qed.


Lemma map_result_Forall {A B : Type} (f : A → result B) (g : A → B) (l : list A) :
  Forall (λ x, f x = Ok (g x)) l → map_result f l = Ok (g <$> l).
Proof.
  induction 1 as [|x l Hx _ IH]; simpl; [done |]. by rewrite Hx, bind_Ok, IH.
Qed.


(** ** Strings *)

(** The characters of a string. *)
Lemma chars_lstrip (s : string) (c : ascii) :
  c ∈ list_ascii_of_string (lstrip s) → c ∈ list_ascii_of_string s.
Proof.
  induction s as [|a s IH]; simpl; [done |].
  destruct (is_space a); simpl; [| done]. intros H. right. by apply IH.
Qed.

Lemma chars_rstrip (s : string) (c : ascii) :
  c ∈ list_ascii_of_string (rstrip s) → c ∈ list_ascii_of_string s.
Proof.
  induction s as [|a s IH]; simpl; [done |].
  destruct (is_space a && is_empty (rstrip s)); simpl.
  - by intros ?%elem_of_nil.
  - intros [->|H]%elem_of_cons; [left | right; by apply IH].
Qed.

Lemma chars_strip (s : string) (c : ascii) :
  c ∈ list_ascii_of_string (strip s) → c ∈ list_ascii_of_string s.
Proof. intros H. by apply chars_lstrip, chars_rstrip. Qed.

Lemma split_once_None (sep : ascii) (s : string) :
  sep ∉ list_ascii_of_string s → split_once sep s = None.
Proof.
  induction s as [|a s IH]; simpl; [done |].
  intros H. apply not_elem_of_cons in H as [Hne Hs].
  unfold ascii_eqb. rewrite bool_decide_eq_false_2 by congruence.
  by rewrite IH.
Qed.

Lemma parse_line_without_equals (line : string) :
  "="%char ∉ list_ascii_of_string line → parse_line line = Raise MalformedLine.
Proof.
  intros H. unfold parse_line. rewrite split_once_None; [done |].
  intros Hin. by apply H, chars_strip.
Qed.

(** ** [read_meta] *)

Lemma read_meta_lines_raise (meta : metadata) (before after : list string)
    (line : string) (e : exn) :
  Forall (λ l, ∃ kv, parse_line l = Ok kv) before →
  parse_line line = Raise e →
  read_meta_lines meta (before ++ line :: after) = Raise e.
Proof.
  intros Hb Hl. revert meta.
  induction Hb as [|l before [[k v] Hkv] _ IH]; intros meta; simpl.
  - by rewrite Hl.
  - rewrite Hkv, bind_Ok. apply IH.
Qed.

Lemma read_meta_lines_store (meta : metadata) (lines : list string)
    (entries : list (string * pyval)) :
  map_result parse_line lines = Ok entries →
  read_meta_lines meta lines = Ok (store_all meta entries).
Proof.
  revert meta entries. induction lines as [|l lines IH]; intros meta entries; simpl.
  - by intros [= <-].
  - intros H. apply bind_Ok_inv in H as ([k v] & Hl & H).
    apply bind_Ok_inv in H as (es & Hes & [= <-]).
    rewrite Hl, bind_Ok. simpl. by apply IH.
Qed.

Lemma store_all_absent (meta : metadata) (entries : list (string * pyval))
    (key : string) :
  key ∉ entries.*1 → store_all meta entries !! key = meta !! key.
Proof.
  revert meta. induction entries as [|[k v] es IH]; intros meta; simpl; [done |].
  intros [Hne Hes]%not_elem_of_cons. rewrite IH by done.
  by rewrite lookup_insert_ne.
Qed.

Lemma store_all_last (meta : metadata) (pre post : list (string * pyval))
    (key : string) (v : pyval) :
  key ∉ post.*1 → store_all meta (pre ++ (key, v) :: post) !! key = Some v.
Proof.
  intros Hpost. unfold store_all. rewrite foldl_app. simpl.
  fold (store_all (<[key:=v]> (foldl (λ m e, <[e.1 := e.2]> m) meta pre)) post).
  rewrite store_all_absent by done. apply lookup_insert_eq.
Qed.

(** C8.  A metadata text with a line that has no ["="], all the lines before
    it being well-formed, makes [read_meta] raise the unpacking error of that
    line ([MalformedLine]); an exception is the whole outcome, so no
    dictionary, partial or not, is returned. *)
Theorem read_meta_malformed_line (fs : filesystem) (filename text : string)
    (before after : list string) (line : string) :
  fs !! replace ".bin" ".meta" filename = Some text →
  file_lines false text = before ++ line :: after →
  "="%char ∉ list_ascii_of_string line →
  Forall (λ l, ∃ kv, parse_line l = Ok kv) before →
  read_meta fs filename = Raise MalformedLine
  ∧ ∀ meta, read_meta fs filename ≠ Ok meta.
Proof.
  intros Hfs Hlines Hline Hbefore.
  assert (read_meta fs filename = Raise MalformedLine) as ->.
  { unfold read_meta, parse_meta. rewrite Hfs, Hlines.
    apply read_meta_lines_raise; [done |]. by apply parse_line_without_equals. }
  split; [done | discriminate].
Qed.

Lemma read_meta_malformed_line_witness :
  read_meta {[ "run.imec0.ap.meta" := malformed_text ]} "run.imec0.ap.bin"
    = Raise MalformedLine
  ∧ ∀ meta, read_meta {[ "run.imec0.ap.meta" := malformed_text ]}
              "run.imec0.ap.bin" ≠ Ok meta.
Proof.
  apply (read_meta_malformed_line _ _ malformed_text
           ["nSavedChans=385"] ["typeThis=imec"] "imSampRate 30000").
  - reflexivity.
  - reflexivity.
  - vm_compute. intros H. repeat (apply elem_of_cons in H as [H|H]; [discriminate |]).
    by apply elem_of_nil in H.
  - repeat constructor. eexists. vm_compute. reflexivity.
Defined.

(** C10.  When every line of the text parses, [read_meta] returns a
    dictionary in which each key holds the value of the last line that
    carries it, whatever other lines (with the same key or another) come
    before; a key no line carries is absent. *)
Theorem read_meta_last_line_wins (fs : filesystem) (filename text : string)
    (entries : list (string * pyval)) :
  fs !! replace ".bin" ".meta" filename = Some text →
  map_result parse_line (file_lines false text) = Ok entries →
  ∃ meta, read_meta fs filename = Ok meta
    ∧ (∀ key v pre post, entries = pre ++ (key, v) :: post →
         key ∉ post.*1 → meta !! key = Some v)
    ∧ (∀ key, key ∉ entries.*1 → meta !! key = None).
Proof.
  intros Hfs Hentries. exists (store_all ∅ entries). split; [| split].
  - unfold read_meta, parse_meta. rewrite Hfs. by apply read_meta_lines_store.
  - intros key v pre post -> Hpost. by apply store_all_last.
  - intros key Hkey. by rewrite store_all_absent.
Qed.

Lemma read_meta_last_line_wins_witness :
  ∃ meta, read_meta {[ "run.imec0.ap.meta" := duplicate_key_text ]}
            "run.imec0.ap.meta" = Ok meta
    ∧ meta !! "imSampRate" = Some (VFloat 30000.5)
    ∧ meta !! "fileName" = Some (VStr "run.imec0.ap.bin")
    ∧ meta !! "nSavedChans" = None.
Proof.
  assert (map_result parse_line (file_lines false duplicate_key_text)
          = Ok [("imSampRate", VInt 30000); ("fileName", VStr "run.imec0.ap.bin");
                ("imSampRate", VFloat 30000.5)]) as Hentries by reflexivity.
  assert (({[ "run.imec0.ap.meta" := duplicate_key_text ]} : filesystem)
            !! replace ".bin" ".meta" "run.imec0.ap.meta"
          = Some duplicate_key_text) as Hfs by reflexivity.
  destruct (read_meta_last_line_wins _ _ _ _ Hfs Hentries)
    as (meta & Hmeta & Hlast & Habsent).
  exists meta. split; [exact Hmeta |]. split; [| split].
  - apply (Hlast _ _ [("imSampRate", VInt 30000); ("fileName", VStr "run.imec0.ap.bin")] []);
      [reflexivity | apply not_elem_of_nil].
  - apply (Hlast _ _ [("imSampRate", VInt 30000)] [("imSampRate", VFloat 30000.5)]);
      [reflexivity |].
    simpl. intros H. apply elem_of_cons in H as [H|H]; [discriminate | by apply elem_of_nil in H].
  - apply Habsent. simpl. intros H.
    repeat (apply elem_of_cons in H as [H|H]; [discriminate |]).
    by apply elem_of_nil in H.
Defined.

(** ** [parse_imrotbl] *)

Lemma py_int_Some (tok : string) (n : Z) :
  int_literal tok = Some n → py_int tok = Ok n.
Proof. unfold py_int. by intros ->. Qed.

Lemma map_result_py_int (toks : list string) :
  Forall (λ tok, is_Some (int_literal tok)) toks →
  ∃ data, map_result py_int toks = Ok data.
Proof.
  induction 1 as [|tok toks [n Hn] _ [data IH]]; [by exists [] |].
  exists (n :: data). cbn [map_result].
  by rewrite (py_int_Some _ _ Hn), bind_Ok, IH.
Qed.

Lemma int_tuple_intro (entry : string) (data : list Z) :
  map_result py_int (split_ws entry) = Ok data → int_tuple entry.
Proof.
  unfold int_tuple. revert data.
  induction (split_ws entry) as [|tok toks IH]; intros data H; [constructor |].
  cbn [map_result] in H. apply bind_Ok_inv in H as (n & Hn & H).
  apply bind_Ok_inv in H as (ns & Hns & _). constructor; [| by eapply IH].
  unfold py_int in Hn. destruct (int_literal tok); [by eexists | discriminate].
Qed.

Lemma mem_false (x : Z) (l : list Z) : x ∉ l → mem x l = false.
Proof. intros H. unfold mem. by apply bool_decide_eq_false_2. Qed.

Lemma imro_append_unknown (probe_type : Z) (data : list Z) (chs : list int_dict) :
  probe_type ∉ known_probe_types → imro_append probe_type data chs = chs.
Proof.
  unfold known_probe_types. intros H.
  apply not_elem_of_app in H as [H1 H]. apply not_elem_of_app in H as [H2 H3].
  unfold imro_append. by rewrite !mem_false.
Qed.

Lemma imro_loop_unknown (probe_type : Z) (chs : list int_dict) (rest : list string) :
  probe_type ∉ known_probe_types → Forall int_tuple rest →
  imro_loop probe_type chs rest = Ok chs.
Proof.
  intros Hpt. induction 1 as [|entry rest Hentry _ IH]; simpl; [done |].
  destruct (map_result_py_int _ Hentry) as [data ->].
  by rewrite bind_Ok, imro_append_unknown.
Qed.

(** C7.  A readout-table text whose header group reads as the two integers
    [probe_type, num_channels], with a probe type outside the three known
    sets, and whose other groups are integers separated by whitespace, parses
    without an error: the table keeps the two header integers and its channel
    list is empty. *)
Theorem parse_imrotbl_unknown_probe_type (value header : string)
    (rest : list string) (ptype nchan : Z) :
  findall_lazy_groups value = header :: rest →
  unpack2_int (split_char "," header) = Ok (ptype, nchan) →
  ptype ∉ known_probe_types →
  Forall int_tuple rest →
  parse_imrotbl value
    = Ok {| probe_type := ptype; num_channels := nchan; channels := [] |}.
Proof.
  intros Hgroups Hheader Hpt Hrest. unfold parse_imrotbl.
  rewrite Hgroups, Hheader, bind_Ok. simpl.
  by rewrite imro_loop_unknown.
Qed.

Lemma parse_imrotbl_unknown_probe_type_witness :
  parse_imrotbl unknown_probe_text
    = Ok {| probe_type := 9999; num_channels := 384; channels := [] |}.
Proof.
  apply (parse_imrotbl_unknown_probe_type unknown_probe_text "9999,384"
           ["0 0 0 500 250 1"; "1 0 0 500 250 1"]).
  - reflexivity.
  - reflexivity.
  - vm_compute. intros H.
    repeat (apply elem_of_cons in H as [H|H]; [discriminate |]).
    by apply elem_of_nil in H.
  - constructor; [eapply int_tuple_intro; reflexivity |].
    constructor; [eapply int_tuple_intro; reflexivity |]. constructor.
Defined.

Lemma imro_append_apgain (probe_type : Z) (data : list Z) (chs : list int_dict) :
  probe_type ∈ np2_single_types ++ np2_multi_types →
  Forall (λ ch : int_dict, ch !! "apgain" = Some 80) chs →
  Forall (λ ch : int_dict, ch !! "apgain" = Some 80)
         (imro_append probe_type data chs).
Proof.
  intros Hpt Hchs.
  assert (∀ ch : int_dict, ch !! "apgain" = Some 80 →
          Forall (λ ch : int_dict, ch !! "apgain" = Some 80) (chs ++ [ch])) as Hadd.
  { intros ch Hch. apply Forall_app. split; [done |]. by constructor. }
  unfold np2_single_types, np2_multi_types in Hpt. simpl in Hpt.
  repeat (apply elem_of_cons in Hpt as [->|Hpt]);
    [ .. | by apply elem_of_nil in Hpt ];
    unfold imro_append;
    (destruct data as [|c0 [|c1 [|c2 [|c3 [|c4 [|c5 data]]]]]]);
    try exact Hchs; apply Hadd; reflexivity.
Qed.

Lemma imro_loop_apgain (probe_type : Z) (chs out : list int_dict)
    (entries : list string) :
  probe_type ∈ np2_single_types ++ np2_multi_types →
  Forall (λ ch : int_dict, ch !! "apgain" = Some 80) chs →
  imro_loop probe_type chs entries = Ok out →
  Forall (λ ch : int_dict, ch !! "apgain" = Some 80) out.
Proof.
  intros Hpt. revert chs. induction entries as [|entry rest IH]; intros chs Hchs; simpl.
  - by intros [= <-].
  - intros H. apply bind_Ok_inv in H as (data & _ & H).
    eapply IH; [| exact H]. by apply imro_append_apgain.
Qed.

Lemma map_result_getitem (key : string) (v : Z) (chs : list int_dict) :
  Forall (λ ch : int_dict, ch !! key = Some v) chs →
  map_result (λ ch : int_dict, getitem ch key) chs = Ok (replicate (length chs) v).
Proof.
  induction 1 as [|ch chs Hch _ IH]; simpl; [done |].
  by rewrite (getitem_Some _ _ _ Hch), bind_Ok, IH.
Qed.

(** [get_gain] on an imec recording with a readout table. *)
Lemma get_gain_imec_ap (meta : metadata) (t : imro_table) (f : string) :
  meta !! "typeThis" = Some (VStr "imec") →
  meta !! "imroTbl" = Some (VImro t) →
  meta !! "fileName" = Some (VStr f) →
  endswith ".ap.bin" f = true →
  get_gain meta
    = np_array <$> map_result (λ ch : int_dict, getitem ch "apgain") (channels t).
Proof.
  intros Htype Himro Hname Hap. unfold get_gain.
  rewrite (getitem_Some _ _ _ Htype), bind_Ok. simpl is_str.
  rewrite Himro. simpl.
  rewrite (getitem_Some _ _ _ Hname). simpl. rewrite Hap.
  rewrite (getitem_Some _ _ _ Himro). reflexivity.
Qed.

Lemma get_gain_imec_lf (meta : metadata) (t : imro_table) (f : string) :
  meta !! "typeThis" = Some (VStr "imec") →
  meta !! "imroTbl" = Some (VImro t) →
  meta !! "fileName" = Some (VStr f) →
  endswith ".ap.bin" f = false →
  endswith ".lf.bin" f = true →
  get_gain meta
    = np_array <$> map_result (λ ch : int_dict, getitem ch "lfgain") (channels t).
Proof.
  intros Htype Himro Hname Hap Hlf. unfold get_gain.
  rewrite (getitem_Some _ _ _ Htype), bind_Ok. simpl is_str.
  rewrite Himro. simpl.
  rewrite (getitem_Some _ _ _ Hname). simpl. rewrite Hap, Hlf.
  rewrite (getitem_Some _ _ _ Himro). reflexivity.
Qed.

(** C9.  The channel records parsed for a probe type of the single-shank or
    of the multi-shank set all carry [apgain = 80], whatever the integers of
    the text; [get_gain] on an imec AP-band recording with such a table
    returns one [80] per channel record. *)
Theorem np2_apgain_is_80 (value : string) (t : imro_table) :
  parse_imrotbl value = Ok t →
  probe_type t ∈ np2_single_types ++ np2_multi_types →
  Forall (λ ch : int_dict, ch !! "apgain" = Some 80) (channels t)
  ∧ ∀ (meta : metadata) (f : string),
      meta !! "typeThis" = Some (VStr "imec") →
      meta !! "imroTbl" = Some (VImro t) →
      meta !! "fileName" = Some (VStr f) →
      endswith ".ap.bin" f = true →
      get_gain meta = Ok (np_array (replicate (length (channels t)) 80)).
Proof.
  intros Hparse Hpt.
  assert (Forall (λ ch : int_dict, ch !! "apgain" = Some 80) (channels t)) as Hall.
  { unfold parse_imrotbl in Hparse.
    destruct (findall_lazy_groups value) as [|header rest]; [discriminate |].
    apply bind_Ok_inv in Hparse as ([ptype nchan] & _ & Hparse).
    apply bind_Ok_inv in Hparse as (chs & Hloop & [= <-]). simpl in *.
    eapply imro_loop_apgain; [exact Hpt | constructor | exact Hloop]. }
  split; [exact Hall |].
  intros meta f Htype Himro Hname Hap.
  rewrite (get_gain_imec_ap meta t f) by done.
  by rewrite (map_result_getitem "apgain" 80).
Qed.

Lemma np2_apgain_is_80_witness :
  ∃ t, parse_imrotbl np2_probe_text = Ok t
    ∧ length (channels t) = 3%nat
    ∧ Forall (λ ch : int_dict, ch !! "apgain" = Some 80) (channels t)
    ∧ get_gain {[ "typeThis" := VStr "imec"; "imroTbl" := VImro t;
                  "fileName" := VStr "run.imec0.ap.bin" ]}
        = Ok (IntArray [80; 80; 80]).
Proof.
  destruct (parse_imrotbl np2_probe_text) as [t|e] eqn:Hparse; [| discriminate].
  exists t. split; [reflexivity |].
  assert (probe_type t = 24 ∧ length (channels t) = 3%nat) as [Hpt Hlen].
  { vm_compute in Hparse. injection Hparse as <-. split; reflexivity. }
  destruct (np2_apgain_is_80 np2_probe_text t Hparse) as [Hall Hgain].
  { rewrite Hpt. vm_compute. do 3 right. left. }
  split; [exact Hlen |]. split; [exact Hall |].
  rewrite (Hgain _ "run.imec0.ap.bin"); [by rewrite Hlen | reflexivity ..].
Defined.

(** C5.  On an imec recording with a readout table whose file name ends in
    neither band suffix, [get_gain] evaluates [meta['filename']] while it
    builds the message of the error: it raises [KeyError] unless the metadata
    has a key ["filename"] next to ["fileName"], and only then the
    [ValueError] for the unrecognized file. *)
Theorem get_gain_unrecognized_file (meta : metadata) (t : imro_table) (f : string) :
  meta !! "typeThis" = Some (VStr "imec") →
  meta !! "imroTbl" = Some (VImro t) →
  meta !! "fileName" = Some (VStr f) →
  endswith ".ap.bin" f = false →
  endswith ".lf.bin" f = false →
  get_gain meta = match meta !! "filename" with
                  | None => Raise (KeyError "filename")
                  | Some _ => Raise UnrecognizedFileKind
                  end.
Proof.
  intros Htype Himro Hname Hap Hlf. unfold get_gain.
  rewrite (getitem_Some _ _ _ Htype), bind_Ok. simpl is_str.
  rewrite Himro. simpl.
  rewrite (getitem_Some _ _ _ Hname). simpl. rewrite Hap, Hlf.
  unfold getitem. by destruct (meta !! "filename").
Qed.

Lemma get_gain_unrecognized_file_witness :
  get_gain nidq_named_imec_meta = Raise (KeyError "filename").
Proof.
  rewrite (get_gain_unrecognized_file nidq_named_imec_meta
             {| probe_type := 0; num_channels := 1;
                channels := [list_to_map
                  [("channel", 0); ("bank", 0); ("refid", 0);
                   ("apgain", 500); ("lfgain", 250); ("apfilt", 1)]] |}
             "D:/data/run_g0_t0.nidq.bin");
    reflexivity.
Defined.

(** ** Slices *)

Lemma filter_all {A : Type} (P : A → Prop) `{!∀ x, Decision (P x)} (l : list A) :
  Forall P l → filter P l = l.
Proof.
  induction 1 as [|x l Hx _ IH]; [done |]. by rewrite filter_cons_True, IH.
Qed.

Lemma filter_none {A : Type} (P : A → Prop) `{!∀ x, Decision (P x)} (l : list A) :
  Forall (λ x, ¬ P x) l → filter P l = [].
Proof.
  induction 1 as [|x l Hx _ IH]; [done |]. by rewrite filter_cons_False.
Qed.

Lemma slice_positions (P : Z → Prop) `{!∀ i, Decision (P i)} (k m : nat) :
  (snd <$> filter (λ p : Z * nat, P p.1) (zip (Z.of_nat <$> seq k m) (seq k m)))
  = filter (λ i : nat, P (Z.of_nat i)) (seq k m).
Proof.
  revert k. induction m as [|m IH]; intros k; [done |]. simpl.
  destruct (decide (P (Z.of_nat k))) as [Hk|Hk].
  - rewrite !filter_cons_True by done. simpl. by rewrite IH.
  - rewrite !filter_cons_False by done. by rewrite IH.
Qed.

Lemma filter_seq_range (a b n : nat) :
  (a ≤ b)%nat → (b ≤ n)%nat →
  filter (λ i : nat, (Z.of_nat a <=? Z.of_nat i) && (Z.of_nat i <? Z.of_nat b) = true)
         (seq 0 n)
  = seq a (b - a).
Proof.
  intros Hab Hbn.
  replace n with (a + ((b - a) + (n - b)))%nat by lia.
  rewrite !seq_app, !filter_app. simpl.
  rewrite filter_none, filter_all, filter_none; [by rewrite app_nil_r | ..].
  - apply Forall_seq. intros j Hj. rewrite andb_true_iff. lia.
  - apply Forall_seq. intros j Hj. rewrite andb_true_iff. lia.
  - apply Forall_seq. intros j Hj. rewrite andb_true_iff. lia.
Qed.

Lemma slice_list_seq (a b n : nat) :
  (a ≤ b)%nat → (b ≤ n)%nat →
  slice_list (Z.of_nat a) (Z.of_nat b) (seq 0 n) = seq a (b - a).
Proof.
  intros Hab Hbn. unfold slice_list, positions. rewrite length_seq.
  pose proof (slice_positions
                (λ i, in_slice (Z.of_nat n) (Z.of_nat a) (Z.of_nat b) i = true)
                0 n) as Hpos.
  cbv beta in Hpos. rewrite Hpos.
  rewrite <- (filter_seq_range a b n) by done.
  apply list_filter_iff. intros i. unfold in_slice, clamp.
  replace (Z.of_nat a <? 0) with false by lia.
  replace (Z.of_nat b <? 0) with false by lia.
  by rewrite !Z.min_l by lia.
Qed.

Lemma channel_indices_slice (a b : Z) (n : nat) :
  0 ≤ a → a ≤ b → b ≤ Z.of_nat n →
  channel_indices (Slice a b) n = Ok (seq (Z.to_nat a) (Z.to_nat (b - a))).
Proof.
  intros Ha Hab Hbn. unfold channel_indices, select.
  assert (slice_list a b (seq 0 n)
          = slice_list (Z.of_nat (Z.to_nat a)) (Z.of_nat (Z.to_nat b)) (seq 0 n))
    as -> by (by rewrite !Z2Nat.id by lia).
  rewrite slice_list_seq by lia. do 2 f_equal. lia.
Qed.

(** ** [get_channel_idx] *)

(** X3.  For an imec recording the analog selection is [0 : AP+LF] and the
    digital one [AP+LF : AP+LF+SY]; for a nidq recording they are
    [0 : MN+MA+XA] and [MN+MA+XA : MN+MA+XA+DW].  With sub-counts that are
    not negative, the analog selection takes the channels [0 .. a-1], the
    digital one the channels [a .. total-1], and the two lists, one after the
    other, are the whole channel range [0 .. total-1]. *)
Theorem get_channel_idx_partition (meta : metadata) (d : int_dict) :
  (∀ ap lf sy,
     meta !! "typeThis" = Some (VStr "imec") →
     meta !! "snsApLfSy" = Some (VDict d) →
     d !! "AP" = Some ap → d !! "LF" = Some lf → d !! "SY" = Some sy →
     0 ≤ ap → 0 ≤ lf → 0 ≤ sy →
     let analog := Slice 0 (ap + lf) in
     let digital := Slice (ap + lf) (ap + lf + sy) in
     let total := Z.to_nat (ap + lf + sy) in
     get_channel_idx meta true = Ok analog
     ∧ get_channel_idx meta false = Ok digital
     ∧ channel_indices analog total = Ok (seq 0 (Z.to_nat (ap + lf)))
     ∧ channel_indices digital total = Ok (seq (Z.to_nat (ap + lf)) (Z.to_nat sy))
     ∧ seq 0 (Z.to_nat (ap + lf)) ++ seq (Z.to_nat (ap + lf)) (Z.to_nat sy)
       = seq 0 total)
  ∧ (∀ mn ma xa dw,
     meta !! "typeThis" = Some (VStr "nidq") →
     meta !! "snsMnMaXaDw" = Some (VDict d) →
     d !! "MN" = Some mn → d !! "MA" = Some ma →
     d !! "XA" = Some xa → d !! "DW" = Some dw →
     0 ≤ mn → 0 ≤ ma → 0 ≤ xa → 0 ≤ dw →
     let analog := Slice 0 (mn + ma + xa) in
     let digital := Slice (mn + ma + xa) (mn + ma + xa + dw) in
     let total := Z.to_nat (mn + ma + xa + dw) in
     get_channel_idx meta true = Ok analog
     ∧ get_channel_idx meta false = Ok digital
     ∧ channel_indices analog total = Ok (seq 0 (Z.to_nat (mn + ma + xa)))
     ∧ channel_indices digital total
       = Ok (seq (Z.to_nat (mn + ma + xa)) (Z.to_nat dw))
     ∧ seq 0 (Z.to_nat (mn + ma + xa)) ++ seq (Z.to_nat (mn + ma + xa)) (Z.to_nat dw)
       = seq 0 total).
Proof.
  split.
  - intros ap lf sy Htype Hd Hap Hlf Hsy ? ? ? analog digital total.
    assert (∀ b, get_channel_idx meta b
                 = Ok (if b then analog else digital)) as Hidx.
    { intros b. unfold get_channel_idx.
      rewrite (getitem_Some _ _ _ Htype), bind_Ok. simpl is_str. cbn iota.
      rewrite (getitem_Some _ _ _ Hd), !bind_Ok. simpl subscript.
      rewrite (getitem_Some _ _ _ Hap), (getitem_Some _ _ _ Hlf),
        (getitem_Some _ _ _ Hsy), !bind_Ok. by destruct b. }
    split; [apply (Hidx true) |]. split; [apply (Hidx false) |].
    subst analog digital total. split; [| split].
    + rewrite channel_indices_slice by lia. do 2 f_equal; lia.
    + rewrite channel_indices_slice by lia. do 2 f_equal; lia.
    + rewrite <- seq_app. f_equal. lia.
  - intros mn ma xa dw Htype Hd Hmn Hma Hxa Hdw ? ? ? ? analog digital total.
    assert (∀ b, get_channel_idx meta b
                 = Ok (if b then analog else digital)) as Hidx.
    { intros b. unfold get_channel_idx.
      rewrite (getitem_Some _ _ _ Htype), bind_Ok. simpl is_str. cbn iota.
      rewrite (getitem_Some _ _ _ Hd), !bind_Ok. simpl subscript.
      rewrite (getitem_Some _ _ _ Hmn), (getitem_Some _ _ _ Hma),
        (getitem_Some _ _ _ Hxa), (getitem_Some _ _ _ Hdw), !bind_Ok.
      by destruct b. }
    split; [apply (Hidx true) |]. split; [apply (Hidx false) |].
    subst analog digital total. split; [| split].
    + rewrite channel_indices_slice by lia. do 2 f_equal; lia.
    + rewrite channel_indices_slice by lia. do 2 f_equal; lia.
    + rewrite <- seq_app. f_equal. lia.
Qed.

Lemma get_channel_idx_partition_witness :
  get_channel_idx imec_counts_meta true = Ok (Slice 0 384)
  ∧ get_channel_idx imec_counts_meta false = Ok (Slice 384 385)
  ∧ channel_indices (Slice 0 384) 385 = Ok (seq 0 384)
  ∧ channel_indices (Slice 384 385) 385 = Ok [384%nat].
Proof.
  destruct (proj1 (get_channel_idx_partition imec_counts_meta
                     (list_to_map [("AP", 384); ("LF", 0); ("SY", 1)]))
              384 0 1) as (Ha & Hd & Hia & Hid & _);
    [reflexivity | reflexivity | reflexivity | reflexivity | reflexivity
     | lia | lia | lia |].
  split; [exact Ha |]. split; [exact Hd |]. split; [exact Hia | exact Hid].
Defined.

(** ** [get_uV_per_bit] and [read_analog] *)

Lemma py_or_unusable (meta : metadata) (key : string) (b : option pyval) :
  unusable meta key → py_or (meta !! key) b = b.
Proof.
  intros H. unfold py_or. destruct (meta !! key) as [v|] eqn:Hv; [| done].
  by rewrite (H v).
Qed.

Lemma py_or_range_max (meta : metadata) (r : option pyval) :
  range_max_rule meta r →
  py_or (meta !! "imAiRangeMax") (meta !! "niAiRangeMax") = r.
Proof.
  intros [(v & Hv & Ht & ->) | [Him ->]].
  - rewrite Hv. simpl. by rewrite Ht.
  - by apply py_or_unusable.
Qed.

Lemma py_or_max_int (meta : metadata) (m : pyval) :
  max_int_rule meta m →
  py_or (py_or (meta !! "imMaxInt") (meta !! "niMaxInt")) (Some (VInt 512))
  = Some m.
Proof.
  intros [[Hm Ht] | [(Him & Hm & Ht) | (Him & Hni & ->)]].
  - rewrite Hm. simpl. rewrite Ht. simpl. by rewrite Ht.
  - rewrite py_or_unusable by done. rewrite Hm. simpl. by rewrite Ht.
  - rewrite py_or_unusable by done. by rewrite py_or_unusable.
Qed.

(** X4.  With [x] the Python value of
    [1000000 * range_max / max_int], where [range_max] is the value of
    [imAiRangeMax] when it is present and true (not zero) and that of
    [niAiRangeMax] otherwise, and [max_int] is the first of [imMaxInt] and
    [niMaxInt] that is present and true, else 512, [get_uV_per_bit] returns
    [x / gain] for each entry of the gain vector; [read_analog] returns the
    samples [read_bin] reads, each one times the scale of its channel among
    the selected ones. *)
Theorem get_uV_per_bit_scale (meta : metadata) (gains : ndarray)
    (r : option pyval) (m : pyval) (x : float) :
  get_gain meta = Ok gains →
  range_max_rule meta r →
  max_int_rule meta m →
  full_scale r (Some m) = Ok x →
  get_uV_per_bit meta = Ok ((λ g, PrimFloat.div x g) <$> as_float64 gains)
  ∧ ∀ (fs : filesystem) (filename bin_fn meta_fn : string) (dt : dtype)
      (channel_idx : option selection) (sample_range : option (Z * Z))
      (n : Z) (sel : selection) (data : array2 Z) (scale : list float),
      file_pair fs filename = Ok (bin_fn, meta_fn) →
      read_meta fs meta_fn = Ok meta →
      meta !! "nSavedChans" = Some (VInt n) →
      match channel_idx with
      | None => get_channel_idx meta true
      | Some s => Ok s
      end = Ok sel →
      read_bin fs bin_fn n dt (Some sel) sample_range = Ok data →
      select sel ((λ g, PrimFloat.div x g) <$> as_float64 gains) = Ok scale →
      length scale = ncols data →
      read_analog fs filename dt channel_idx sample_range
      = Ok {| ncols := ncols data;
              rows := (λ row : list Z,
                         zip_with (λ d s, PrimFloat.mul (float64_of_int d) s)
                                  row scale) <$> rows data |}.
Proof.
  intros Hgain Hr Hm Hx.
  assert (get_uV_per_bit meta
          = Ok ((λ g, PrimFloat.div x g) <$> as_float64 gains)) as HuV.
  { unfold get_uV_per_bit.
    rewrite (py_or_range_max meta r Hr), (py_or_max_int meta m Hm).
    by rewrite Hgain, bind_Ok, Hx, bind_Ok. }
  split; [exact HuV |].
  intros fs filename bin_fn meta_fn dt channel_idx sample_range n sel data scale
    Hpair Hmeta Hn Hsel Hbin Hscale Hlen.
  unfold read_analog. rewrite Hpair, bind_Ok. simpl.
  rewrite Hmeta, bind_Ok, (getitem_Some _ _ _ Hn), bind_Ok.
  rewrite Hsel, bind_Ok, HuV, bind_Ok. simpl as_int. rewrite bind_Ok.
  rewrite Hbin, bind_Ok, Hscale, bind_Ok.
  unfold scale_columns. by rewrite bool_decide_eq_true_2.
Qed.

Lemma get_uV_per_bit_scale_witness :
  read_meta analog_fs "run.imec0.ap.meta" = Ok analog_meta
  ∧ get_uV_per_bit analog_meta = Ok [2.34375%float]
  ∧ read_bin analog_fs "run.imec0.ap.bin" 2 int16 (Some (Slice 0 1)) None
    = Ok {| ncols := 1; rows := [[100]] |}
  ∧ read_analog analog_fs "run.imec0.ap.bin" int16 None None
    = Ok {| ncols := 1; rows := [[234.375%float]] |}.
Proof.
  assert (read_meta analog_fs "run.imec0.ap.meta" = Ok analog_meta) as Hmeta
    by (vm_compute; reflexivity).
  assert (read_bin analog_fs "run.imec0.ap.bin" 2 int16 (Some (Slice 0 1)) None
          = Ok {| ncols := 1; rows := [[100]] |}) as Hbin
    by (vm_compute; reflexivity).
  destruct (get_uV_per_bit_scale analog_meta (IntArray [500])
              (Some (VFloat (PrimFloat.div 6 10))) (VInt 512) 1171.875%float)
    as [HuV Hanalog].
  - vm_compute; reflexivity.
  - left. exists (VFloat (PrimFloat.div 6 10)).
    split; [vm_compute; reflexivity |]. split; vm_compute; reflexivity.
  - left. split; vm_compute; reflexivity.
  - vm_compute; reflexivity.
  - split; [exact Hmeta |]. split; [rewrite HuV; vm_compute; reflexivity |].
    split; [exact Hbin |].
    rewrite (Hanalog analog_fs "run.imec0.ap.bin" "run.imec0.ap.bin"
               "run.imec0.ap.meta" int16 None None 2 (Slice 0 1)
               {| ncols := 1; rows := [[100]] |} [2.34375%float]).
    + vm_compute; reflexivity.
    + vm_compute; reflexivity.
    + exact Hmeta.
    + vm_compute; reflexivity.
    + vm_compute; reflexivity.
    + exact Hbin.
    + vm_compute; reflexivity.
    + reflexivity.
Defined.

(** The scale is not the one the specification words: with [imAiRangeMax]
    present and zero the code does not take it for the range (it looks for
    [niAiRangeMax], finds nothing and fails on [1000000 * None]), while the
    range "taken from the imec-prefixed key if present" is 0 and gives the
    scale 0 for the channel. *)
Lemma claimed_uV_per_bit_counterexample :
  claimed_uV_per_bit zero_range_meta = Ok [0%float]
  ∧ get_uV_per_bit zero_range_meta = Raise TypeError
  ∧ get_uV_per_bit zero_range_meta ≠ claimed_uV_per_bit zero_range_meta.
Proof.
  assert (claimed_uV_per_bit zero_range_meta = Ok [0%float]) as Hc
    by (vm_compute; reflexivity).
  assert (get_uV_per_bit zero_range_meta = Raise TypeError) as Hg
    by (vm_compute; reflexivity).
  split; [exact Hc |]. split; [exact Hg |]. rewrite Hc, Hg. discriminate.
Qed.

(** ** [read_digital] *)

Lemma row_changes_from (k : nat) (prev next : list Z) :
  let l := fst <$> filter (λ p : nat * Z, snd p ≠ 0)
                     (zip (seq k (length prev))
                          (zip_with (λ a b, (b - a) `mod` 256) prev next)) in
  (∀ j, j ∈ l ↔ (k ≤ j)%nat ∧ ∃ a b, prev !! (j - k)%nat = Some a
                    ∧ next !! (j - k)%nat = Some b ∧ (b - a) `mod` 256 ≠ 0)
  ∧ StronglySorted lt l.
Proof.
  revert k next. induction prev as [|a prev IH]; intros k next; simpl.
  { split; [| constructor]. intros j. split; [by intros ?%elem_of_nil |].
    by intros (_ & ? & ? & ? & _). }
  destruct next as [|b next]; simpl.
  { split; [| constructor]. intros j. split; [by intros ?%elem_of_nil |].
    by intros (_ & ? & ? & _ & ? & _). }
  destruct (IH (S k) next) as [IHm IHs]. simpl in IHm, IHs.
  assert (∀ j, (k < j)%nat → (j - k = S (j - S k))%nat) as Hsub by lia.
  rewrite filter_cons. destruct (decide _) as [Hne|Heq]; simpl in *.
  - split.
    + intros j. rewrite elem_of_cons, IHm. split.
      * intros [-> | (Hj & x & y & Hx & Hy & Hxy)].
        -- split; [lia |]. exists a, b. by rewrite Nat.sub_diag.
        -- split; [lia |]. exists x, y. by rewrite (Hsub j) by lia.
      * intros (Hj & x & y & Hx & Hy & Hxy).
        destruct (decide (j = k)) as [-> | Hjk]; [by left | right].
        rewrite (Hsub j) in Hx, Hy by lia. split; [lia | eauto].
    + apply StronglySorted_cons. split; [| done].
      apply Forall_forall. intros j Hj. apply IHm in Hj. lia.
  - split; [| done].
    intros j. rewrite IHm. split.
    + intros (Hj & x & y & Hx & Hy & Hxy).
      split; [lia |]. exists x, y. by rewrite (Hsub j) by lia.
    + intros (Hj & x & y & Hx & Hy & Hxy).
      destruct (decide (j = k)) as [-> | Hjk].
      * rewrite Nat.sub_diag in Hx, Hy. simpl in Hx, Hy.
        injection Hx as <-. injection Hy as <-. by destruct Heq.
      * rewrite (Hsub j) in Hx, Hy by lia. split; [lia | eauto].
Qed.

Lemma row_changes_spec (prev next : list Z) :
  (∀ j, j ∈ row_changes prev next ↔
        ∃ a b, prev !! j = Some a ∧ next !! j = Some b ∧ (b - a) `mod` 256 ≠ 0)
  ∧ StronglySorted lt (row_changes prev next).
Proof.
  destruct (row_changes_from 0 prev next) as [Hm Hs]. split; [| exact Hs].
  intros j. unfold row_changes. rewrite Hm, Nat.sub_0_r. split.
  - by intros [_ H].
  - intros H. split; [lia | done].
Qed.

Lemma where_diff_from (i : nat) (data_bits : list (list Z)) :
  (∀ i' j, (i', j) ∈ where_diff i data_bits ↔
           (i ≤ i')%nat ∧ changed data_bits (i' - i) j)
  ∧ StronglySorted lex_lt (where_diff i data_bits).
Proof.
  revert i. induction data_bits as [|prev rest IH]; intros i.
  { split; [| constructor]. intros i' j. split; [by intros ?%elem_of_nil |].
    by intros (_ & ? & ? & ? & _). }
  destruct rest as [|next rest].
  { split; [| constructor]. intros i' j. split; [by intros ?%elem_of_nil |].
    intros (_ & ? & ? & _ & H & _). by destruct (i' - i)%nat. }
  destruct (IH (S i)) as [IHm IHs].
  destruct (row_changes_spec prev next) as [Hrm Hrs].
  assert (∀ i', (i < i')%nat → (i' - i = S (i' - S i))%nat) as Hsub by lia.
  change (where_diff i (prev :: next :: rest))
    with (((λ j, (i, j)) <$> row_changes prev next)
          ++ where_diff (S i) (next :: rest)).
  split.
  - intros i' j. rewrite elem_of_app, list_elem_of_fmap, IHm. split.
    + intros [(j' & [= -> ->] & Hj) | (Hi & a & b & Ha & Hb & Hab)].
      * split; [lia |]. rewrite Nat.sub_diag. apply Hrm in Hj as (a & b & ? & ? & ?).
        exists a, b. by simpl.
      * split; [lia |]. exists a, b. by rewrite (Hsub i') by lia.
    + intros (Hi & a & b & Ha & Hb & Hab).
      destruct (decide (i' = i)) as [-> | Hne].
      * left. exists j. split; [done |]. apply Hrm.
        rewrite Nat.sub_diag in Ha, Hb. simpl in Ha, Hb. eauto.
      * right. rewrite (Hsub i') in Ha, Hb by lia. split; [lia |].
        exists a, b. eauto.
  - apply StronglySorted_app_2; [| | done].
    + intros p q [j [-> _]]%list_elem_of_fmap Hq. destruct q as [i' j'].
      apply IHm in Hq as [Hq _]. left. simpl. lia.
    + apply (StronglySorted_fmap _ lt lex_lt); [| done].
      intros x y Hxy. right. simpl. split; [done | done].
Qed.

Lemma where_diff_spec (data_bits : list (list Z)) :
  (∀ i j, (i, j) ∈ where_diff 0 data_bits ↔ changed data_bits i j)
  ∧ StronglySorted lex_lt (where_diff 0 data_bits).
Proof.
  destruct (where_diff_from 0 data_bits) as [Hm Hs]. split; [| exact Hs].
  intros i j. rewrite Hm, Nat.sub_0_r. split; [by intros [_ H] |].
  intros H. split; [lia | done].
Qed.

Lemma StronglySorted_lookup {A : Type} (R : relation A) (l : list A)
    (k1 k2 : nat) (x y : A) :
  StronglySorted R l → (k1 < k2)%nat → l !! k1 = Some x → l !! k2 = Some y →
  R x y.
Proof.
  intros Hs. revert k1 k2. induction Hs as [|a l Hs IH Ha]; intros k1 k2 Hk H1 H2.
  { by rewrite lookup_nil in H1. }
  destruct k2 as [|k2]; [lia |]. simpl in H2.
  destruct k1 as [|k1]; simpl in H1.
  - injection H1 as <-. rewrite Forall_forall in Ha. apply Ha.
    by apply list_elem_of_lookup_2 in H2.
  - apply (IH k1 k2); [lia | done | done].
Qed.

Lemma read_digital_inv (fs : filesystem) (filename : string) (dt : dtype)
    (events : list event) :
  read_digital fs filename dt = Ok events →
  ∃ data_bits rate, digital_bits fs filename dt data_bits
                    ∧ events = events_of_bits rate data_bits.
Proof.
  unfold read_digital. intros H.
  apply bind_Ok_inv in H as ([bin_fn meta_fn] & Hpair & H).
  apply bind_Ok_inv in H as (meta & Hmeta & H).
  apply bind_Ok_inv in H as (n_channel & Hn & H).
  apply bind_Ok_inv in H as (sel & Hsel & H).
  apply bind_Ok_inv in H as (n & Hint & H).
  apply bind_Ok_inv in H as (data & Hdata & H).
  apply bind_Ok_inv in H as (data_bits & Hbits & H).
  apply bind_Ok_inv in H as (rate & Hrate & [= <-]).
  exists data_bits, rate. split; [| done].
  exists bin_fn, meta_fn, meta, n, sel, data.
  destruct n_channel; try discriminate. injection Hint as ->.
  unfold getitem in Hn. destruct (meta !! "nSavedChans") eqn:Hl; [| discriminate].
  injection Hn as ->. done.
Qed.

Lemma events_lookup (rate : float) (data_bits : list (list Z)) (k : nat)
    (e : event) :
  events_of_bits rate data_bits !! k = Some e →
  ∃ i j, where_diff 0 data_bits !! k = Some (i, j)
         ∧ ev_sample e = Z.of_nat i + 1
         ∧ ev_chan e = Z.of_nat j
         ∧ ev_type e = bit_at data_bits (i + 1) j.
Proof.
  unfold events_of_bits. rewrite list_lookup_fmap.
  destruct (where_diff 0 data_bits !! k) as [[i j]|]; [| discriminate].
  intros [= <-]. by exists i, j.
Qed.

Lemma lex_lt_irrefl (p : nat * nat) : ¬ lex_lt p p.
Proof. unfold lex_lt. lia. Qed.

Lemma bit_at_changed (data_bits : list (list Z)) (i j : nat) :
  changed data_bits i j →
  ∃ a b, bit_at data_bits i j = a ∧ bit_at data_bits (i + 1) j = b ∧ a ≠ b.
Proof.
  intros (a & b & Ha & Hb & Hab). exists a, b. unfold bit_at.
  rewrite Nat.add_1_r, Ha, Hb. repeat split. intros ->.
  by rewrite Z.sub_diag in Hab.
Qed.

(** X1.  [read_digital] gives no event at sample 0.  Its events are the
    changes of the unpacked bit rows: an event of sample [s] and channel [c]
    means that line [c] differs between the rows [s - 1] and [s], and its
    type is the bit of row [s]; each position [(i, j)] where two consecutive
    rows differ gives one event, of sample [i + 1], channel [j] and type the
    bit at [(i + 1, j)], and no second event has that sample and channel. *)
Theorem read_digital_events (fs : filesystem) (filename : string) (dt : dtype)
    (events : list event) :
  read_digital fs filename dt = Ok events →
  ∃ data_bits, digital_bits fs filename dt data_bits
    ∧ (∀ e, e ∈ events →
         1 ≤ ev_sample e ∧ 0 ≤ ev_chan e
         ∧ changed data_bits (Z.to_nat (ev_sample e) - 1) (Z.to_nat (ev_chan e))
         ∧ ev_type e
           = bit_at data_bits (Z.to_nat (ev_sample e)) (Z.to_nat (ev_chan e)))
    ∧ (∀ i j, changed data_bits i j →
         ∃ k e, events !! k = Some e
           ∧ ev_sample e = Z.of_nat i + 1
           ∧ ev_chan e = Z.of_nat j
           ∧ ev_type e = bit_at data_bits (i + 1) j
           ∧ ∀ k' e', events !! k' = Some e' →
               ev_sample e' = Z.of_nat i + 1 → ev_chan e' = Z.of_nat j →
               k' = k).
Proof.
  intros H. apply read_digital_inv in H as (data_bits & rate & Hbits & ->).
  exists data_bits. split; [exact Hbits |].
  destruct (where_diff_spec data_bits) as [Hmem Hsorted]. split.
  - intros e [k Hk]%list_elem_of_lookup.
    apply events_lookup in Hk as (i & j & Hij & -> & -> & ->).
    apply list_elem_of_lookup_2, Hmem in Hij.
    replace (Z.to_nat (Z.of_nat i + 1)) with (i + 1)%nat by lia.
    rewrite Nat2Z.id. replace (i + 1 - 1)%nat with i by lia.
    repeat split; [lia | lia | done].
  - intros i j Hij. apply Hmem, list_elem_of_lookup in Hij as [k Hk].
    exists k. eexists. split.
    { unfold events_of_bits. rewrite list_lookup_fmap, Hk. reflexivity. }
    simpl. repeat split.
    intros k' e' Hk' Hs Hc.
    apply events_lookup in Hk' as (i' & j' & Hij' & Hs' & Hc' & _).
    assert (i' = i) as -> by lia. assert (j' = j) as -> by lia.
    destruct (lt_eq_lt_dec k' k) as [[Hlt | ->] | Hlt]; [| done |].
    + destruct (lex_lt_irrefl (i, j)).
      by apply (StronglySorted_lookup lex_lt _ k' k _ _ Hsorted).
    + destruct (lex_lt_irrefl (i, j)).
      by apply (StronglySorted_lookup lex_lt _ k k' _ _ Hsorted).
Qed.

Lemma read_digital_events_witness :
  read_digital digital_fs "run.imec0.ap.bin" uint16 = Ok digital_events
  ∧ ∃ data_bits, digital_bits digital_fs "run.imec0.ap.bin" uint16 data_bits
    ∧ ∀ e, e ∈ digital_events →
        1 ≤ ev_sample e ∧ 0 ≤ ev_chan e
        ∧ changed data_bits (Z.to_nat (ev_sample e) - 1) (Z.to_nat (ev_chan e))
        ∧ ev_type e
          = bit_at data_bits (Z.to_nat (ev_sample e)) (Z.to_nat (ev_chan e)).
Proof.
  assert (read_digital digital_fs "run.imec0.ap.bin" uint16 = Ok digital_events)
    as Hread by (vm_compute; reflexivity).
  split; [exact Hread |].
  destruct (read_digital_events _ _ _ _ Hread) as (data_bits & Hbits & Hev & _).
  exists data_bits. split; [exact Hbits | exact Hev].
Defined.

(** X2.  The events [read_digital] returns are in the order of the scan: the
    sample index never decreases along the table, and of two events of the
    same sample the earlier one has the smaller channel. *)
Theorem read_digital_sorted (fs : filesystem) (filename : string) (dt : dtype)
    (events : list event) :
  read_digital fs filename dt = Ok events →
  ∀ k1 k2 e1 e2, (k1 < k2)%nat →
    events !! k1 = Some e1 → events !! k2 = Some e2 →
    ev_sample e1 ≤ ev_sample e2
    ∧ (ev_sample e1 = ev_sample e2 → ev_chan e1 < ev_chan e2).
Proof.
  intros H k1 k2 e1 e2 Hk H1 H2.
  apply read_digital_inv in H as (data_bits & rate & _ & ->).
  destruct (where_diff_spec data_bits) as [_ Hsorted].
  apply events_lookup in H1 as (i1 & j1 & Hp1 & -> & -> & _).
  apply events_lookup in H2 as (i2 & j2 & Hp2 & -> & -> & _).
  pose proof (StronglySorted_lookup lex_lt _ k1 k2 _ _ Hsorted Hk Hp1 Hp2) as Hlt.
  unfold lex_lt in Hlt. simpl in Hlt. lia.
Qed.

Lemma read_digital_sorted_witness :
  read_digital digital_fs "run.imec0.ap.bin" uint16 = Ok digital_events
  ∧ ∃ e1 e2, digital_events !! 0%nat = Some e1 ∧ digital_events !! 1%nat = Some e2
      ∧ ev_sample e1 ≤ ev_sample e2
      ∧ (ev_sample e1 = ev_sample e2 → ev_chan e1 < ev_chan e2).
Proof.
  assert (read_digital digital_fs "run.imec0.ap.bin" uint16 = Ok digital_events)
    as Hread by (vm_compute; reflexivity).
  split; [exact Hread |].
  eexists _, _. split; [reflexivity |]. split; [reflexivity |].
  apply (read_digital_sorted _ _ _ _ Hread 0%nat 1%nat); [lia | done | done].
Defined.

(** ** [read_bin] *)
















(** *** The values [read_bin] returns *)

Lemma file_bytes_range (content : string) :
  Forall (λ b, 0 ≤ b < 256) (file_bytes content).
Proof.
  unfold file_bytes. apply Forall_fmap, Forall_forall. intros c _. simpl.
  pose proof (N_ascii_bounded c). lia.
Qed.

Lemma le_unsigned_range (bs : list Z) :
  Forall (λ b, 0 ≤ b < 256) bs →
  0 ≤ le_unsigned bs < 256 ^ Z.of_nat (length bs).
Proof.
  induction 1 as [|b bs Hb _ IH]; simpl le_unsigned; [simpl; lia |].
  rewrite length_cons, Nat2Z.inj_succ, Z.pow_succ_r by lia. lia.
Qed.

Lemma decode_range (dt : dtype) (bs : list Z) :
  Forall (λ b, 0 ≤ b < 256) bs →
  Z.of_nat (length bs) ≤ itemsize dt →
  dtype_min dt ≤ decode dt bs ≤ dtype_max dt.
Proof.
  intros Hbs Hlen. pose proof (le_unsigned_range bs Hbs) as Hu.
  assert (256 ^ Z.of_nat (length bs) ≤ 2 ^ (8 * itemsize dt)) as Hpow.
  { change 256 with (2 ^ 8). rewrite <- Z.pow_mul_r by lia.
    apply Z.pow_le_mono_r; lia. }
  assert (2 ^ (8 * itemsize dt) = 2 * 2 ^ (8 * itemsize dt - 1)) as Hhalf.
  { rewrite <- Z.pow_succ_r by (destruct dt; simpl; lia). f_equal. lia. }
  unfold decode, dtype_min, dtype_max.
  destruct (is_signed dt); simpl andb.
  - destruct (2 ^ (8 * itemsize dt - 1) <=? le_unsigned bs) eqn:E; lia.
  - lia.
Qed.

Lemma chunks_elem {A : Type} (n k : nat) (l c : list A) (x : A) :
  c ∈ chunks n k l → x ∈ c → x ∈ l.
Proof.
  revert l. induction k as [|k IH]; intros l; simpl; [by intros ?%elem_of_nil |].
  intros [-> | Hc]%elem_of_cons Hx.
  - by apply (subseteq_take n l).
  - apply (subseteq_drop n l). by eapply IH.
Qed.

Lemma chunks_size {A : Type} (n k : nat) (l c : list A) :
  c ∈ chunks n k l → (length c ≤ n)%nat.
Proof.
  revert l. induction k as [|k IH]; intros l; simpl; [by intros ?%elem_of_nil |].
  intros [-> | Hc]%elem_of_cons; [rewrite length_take; lia | by eapply IH].
Qed.

Lemma map_result_elem {A B : Type} (f : A → result B) (l : list A) (r : list B)
    (y : B) :
  map_result f l = Ok r → y ∈ r → ∃ x, x ∈ l ∧ f x = Ok y.
Proof.
  revert r. induction l as [|a l IH]; intros r; simpl.
  - intros [= <-] ?%elem_of_nil. done.
  - intros H. apply bind_Ok_inv in H as (b & Hb & H).
    apply bind_Ok_inv in H as (bs & Hbs & [= <-]).
    intros [-> | Hy]%elem_of_cons.
    + exists a. split; [left | done].
    + destruct (IH bs Hbs Hy) as (x & Hx & Hfx). exists x. split; [by right | done].
Qed.

Lemma select_elem {A : Type} (sel : selection) (l r : list A) (x : A) :
  select sel l = Ok r → x ∈ r → x ∈ l.
Proof.
  destruct sel as [start stop | idx]; simpl.
  - intros [= <-]. unfold slice_list.
    intros ([p y] & -> & Hp)%list_elem_of_fmap.
    apply list_elem_of_filter in Hp as [_ Hp]. by apply elem_of_zip_r in Hp.
  - unfold take_indices. intros Hr Hx.
    destruct (map_result_elem _ _ _ _ Hr Hx) as (i & _ & Hi).
    destruct (_ || _); [discriminate |]. unfold list_getitem in Hi.
    destruct (l !! _) as [y|] eqn:Hy; [| discriminate].
    injection Hi as <-. by apply list_elem_of_lookup_2 in Hy.
Qed.

(** X6.  Every value of the matrix [read_bin] returns lies in the range of
    the element type: [-2^(8w-1) .. 2^(8w-1) - 1] for a signed type of [w]
    bytes, [0 .. 2^(8w) - 1] for an unsigned one. *)
Theorem read_bin_values_in_range (fs : filesystem) (filename : string) (nc : Z)
    (dt : dtype) (channel_idx : option selection)
    (sample_range : option (Z * Z)) (m : array2 Z) :
  read_bin fs filename nc dt channel_idx sample_range = Ok m →
  ∀ row v, row ∈ rows m → v ∈ row → dtype_min dt ≤ v ≤ dtype_max dt.
Proof.
  unfold read_bin. destruct (fs !! filename) as [content|]; [| discriminate].
  destruct (nc * itemsize dt =? 0); [discriminate |].
  intros H. apply bind_Ok_inv in H as (data & Hmap & Hsel).
  unfold select_columns in Hsel.
  apply bind_Ok_inv in Hsel as (width & _ & Hsel).
  apply bind_Ok_inv in Hsel as (rs & Hrs & [= <-]). cbn [rows].
  intros row v Hrow Hv.
  destruct (map_result_elem _ _ _ _ Hrs Hrow) as (full & Hfull & Hselrow).
  apply (select_elem _ _ _ _ Hselrow) in Hv.
  unfold memmap in Hmap.
  destruct (_ || _); [discriminate |]. destruct (_ || _); [discriminate |].
  injection Hmap as <-. cbn [rows] in Hfull.
  apply (chunks_elem _ _ _ _ _ Hfull) in Hv.
  apply list_elem_of_fmap in Hv as (bs & -> & Hbs).
  apply decode_range.
  - apply Forall_forall. intros b Hb.
    apply (chunks_elem _ _ _ _ _ Hbs) in Hb. apply subseteq_drop in Hb.
    pose proof (file_bytes_range content) as Hall.
    rewrite Forall_forall in Hall. by apply Hall.
  - apply chunks_size in Hbs. destruct dt; simpl in *; lia.
Qed.

Lemma read_bin_values_in_range_witness :
  read_bin digital_fs "run.imec0.ap.bin" 2 int16 None None
  = Ok {| ncols := 2; rows := [[100; 0]; [0; 1]; [0; 3]] |}
  ∧ dtype_min int16 ≤ 100 ≤ dtype_max int16.
Proof.
  assert (read_bin digital_fs "run.imec0.ap.bin" 2 int16 None None
          = Ok {| ncols := 2; rows := [[100; 0]; [0; 1]; [0; 3]] |}) as Hread
    by (vm_compute; reflexivity).
  split; [exact Hread |].
  apply (read_bin_values_in_range _ _ _ _ _ _ _ Hread [100; 0] 100); left.
Defined.

(** ** [get_gain] on a nidq recording *)

Lemma positions_lookup {A : Type} (l : list A) (i : nat) (x : A) :
  l !! i = Some x → zip (positions l) l !! i = Some (Z.of_nat i, x).
Proof.
  intros Hx. unfold positions. rewrite lookup_zip_with.
  rewrite list_lookup_fmap, lookup_seq_lt by (by eapply lookup_lt_Some).
  simpl. by rewrite Hx.
Qed.

Lemma slice_assign_length {A : Type} (start stop : Z) (v : A) (l : list A) :
  length (slice_assign start stop v l) = length l.
Proof.
  unfold slice_assign, positions.
  rewrite length_fmap, length_zip_with, length_fmap, length_seq. lia.
Qed.

Lemma slice_assign_lookup {A : Type} (start stop : Z) (v : A) (l : list A)
    (i : nat) (x : A) :
  l !! i = Some x →
  slice_assign start stop v l !! i
  = Some (if in_slice (Z.of_nat (length l)) start stop (Z.of_nat i) then v else x).
Proof.
  intros Hx. unfold slice_assign.
  by rewrite list_lookup_fmap, (positions_lookup l i x Hx).
Qed.

(** X7.  For a nidq recording with sub-counts that are not negative,
    [get_gain] returns a vector of [MN + MA + XA + DW] entries: [niMNGain]
    on the first [MN] channels, [niMAGain] on the next [MA], and 1 on the
    others. *)
Theorem get_gain_nidq (meta : metadata) (d : int_dict) (mn ma xa dw : Z)
    (vmn vma : pyval) (gmn gma : float) :
  meta !! "typeThis" = Some (VStr "nidq") →
  meta !! "snsMnMaXaDw" = Some (VDict d) →
  d !! "MN" = Some mn → d !! "MA" = Some ma →
  d !! "XA" = Some xa → d !! "DW" = Some dw →
  0 ≤ mn → 0 ≤ ma → 0 ≤ xa → 0 ≤ dw →
  meta !! "niMNGain" = Some vmn → to_float64 vmn = Ok gmn →
  meta !! "niMAGain" = Some vma → to_float64 vma = Ok gma →
  ∃ gains, get_gain meta = Ok (FloatArray gains)
    ∧ Z.of_nat (length gains) = mn + ma + xa + dw
    ∧ ∀ i, (i < length gains)%nat →
        gains !! i = Some (if Z.of_nat i <? mn then gmn
                           else if Z.of_nat i <? mn + ma then gma
                           else 1%float).
Proof.
  intros Htype Hd Hmn Hma Hxa Hdw ? ? ? ? Hvmn Hgmn Hvma Hgma.
  set (total := Z.to_nat (mn + ma + xa + dw)).
  exists (slice_assign mn (mn + ma) gma
            (slice_assign 0 mn gmn (replicate total 1%float))).
  split; [| split].
  - unfold get_gain.
    rewrite (getitem_Some _ _ _ Htype), bind_Ok. simpl is_str. cbn iota.
    rewrite Hd, Hvmn, Hvma. simpl orb. cbn iota.
    rewrite (getitem_Some _ _ _ Hd), !bind_Ok. simpl subscript.
    rewrite (getitem_Some _ _ _ Hmn), (getitem_Some _ _ _ Hma),
      (getitem_Some _ _ _ Hxa), (getitem_Some _ _ _ Hdw), !bind_Ok.
    unfold np_ones. replace (mn + ma + xa + dw <? 0) with false by lia.
    rewrite bind_Ok.
    rewrite (getitem_Some _ _ _ Hvmn), bind_Ok, Hgmn, bind_Ok.
    rewrite (getitem_Some _ _ _ Hvma), bind_Ok, Hgma, bind_Ok.
    reflexivity.
  - rewrite !slice_assign_length, length_replicate. subst total. lia.
  - rewrite !slice_assign_length, length_replicate. intros i Hi.
    assert (replicate total 1%float !! i = Some 1%float) as Hone
      by (by apply lookup_replicate_2).
    pose proof (slice_assign_lookup 0 mn gmn _ i _ Hone) as Hfirst.
    rewrite (slice_assign_lookup mn (mn + ma) gma _ i _ Hfirst).
    rewrite slice_assign_length, !length_replicate.
    unfold in_slice, clamp. subst total.
    replace (0 <? 0) with false by lia.
    replace (mn <? 0) with false by lia.
    replace (mn + ma <? 0) with false by lia.
    rewrite !Z.min_l by lia.
    destruct (Z.of_nat i <? mn) eqn:E1, (Z.of_nat i <? mn + ma) eqn:E2;
      destruct (mn <=? Z.of_nat i) eqn:E3, (0 <=? Z.of_nat i) eqn:E4;
      simpl; first [reflexivity | lia].
Qed.

Lemma get_gain_nidq_witness :
  ∃ gains, get_gain nidq_meta = Ok (FloatArray gains)
    ∧ Z.of_nat (length gains) = 2 + 1 + 3 + 1
    ∧ gains !! 0%nat = Some 200%float
    ∧ gains !! 2%nat = Some 1.5%float
    ∧ gains !! 3%nat = Some 1%float.
Proof.
  destruct (get_gain_nidq nidq_meta
              (list_to_map [("MN", 2); ("MA", 1); ("XA", 3); ("DW", 1)])
              2 1 3 1 (VInt 200) (VFloat 1.5) 200%float 1.5%float)
    as (gains & Hgain & Hlen & Hat);
    try (vm_compute; reflexivity); try lia.
  exists gains. split; [exact Hgain |]. split; [exact Hlen |].
  split; [| split]; (rewrite Hat; [reflexivity | lia]).
Defined.

(** ** The legacy layout: from the text to the gains *)

Lemma imro_append_legacy (ptype : Z) (r : list Z) (chs : list int_dict) :
  ptype ∈ np1_types → length r = 6%nat →
  imro_append ptype r chs = chs ++ [legacy_record r].
Proof.
  intros Hpt Hlen. unfold imro_append, mem.
  rewrite bool_decide_eq_true_2 by done.
  destruct r as [|c0 [|c1 [|c2 [|c3 [|c4 [|c5 [|c6 r]]]]]]]; try discriminate.
  reflexivity.
Qed.

Lemma imro_loop_legacy (ptype : Z) (acc : list int_dict) (rest : list string)
    (records : list (list Z)) :
  ptype ∈ np1_types →
  map_result (λ entry, map_result py_int (split_ws entry)) rest = Ok records →
  Forall (λ r, length r = 6%nat) records →
  imro_loop ptype acc rest = Ok (acc ++ (legacy_record <$> records)).
Proof.
  intros Hpt. revert acc records.
  induction rest as [|entry rest IH]; intros acc records; cbn [map_result imro_loop].
  - intros [= <-] _. by rewrite app_nil_r.
  - intros H Hall. apply bind_Ok_inv in H as (r & Hr & H).
    apply bind_Ok_inv in H as (rs & Hrs & [= <-]).
    apply Forall_cons in Hall as [Hlen Hall].
    rewrite Hr, bind_Ok, (imro_append_legacy _ _ _ Hpt Hlen).
    rewrite (IH _ rs Hrs Hall), <- app_assoc. reflexivity.
Qed.

Lemma map_result_legacy_field (key : string) (k : nat) (records : list (list Z)) :
  (∀ r, legacy_record r !! key = Some (nth k r 0)) →
  map_result (λ ch : int_dict, getitem ch key) (legacy_record <$> records)
  = Ok ((λ r, nth k r 0) <$> records).
Proof.
  intros Hkey. induction records as [|r records IH]; [done |].
  rewrite !fmap_cons. cbn [map_result].
  by rewrite (getitem_Some _ _ _ (Hkey r)), bind_Ok, IH.
Qed.

(** X8.  A readout table of a legacy (6-field) probe type whose groups are
    six integers each parses to one channel record per group, in order, with
    the six integers of the group; [get_gain] on an imec recording with that
    table returns the fourth integer of every group for an AP-band file and
    the fifth for an LF-band file. *)
Theorem legacy_gains_round_trip (value header : string) (rest : list string)
    (ptype nchan : Z) (records : list (list Z)) :
  findall_lazy_groups value = header :: rest →
  unpack2_int (split_char "," header) = Ok (ptype, nchan) →
  ptype ∈ np1_types →
  map_result (λ entry, map_result py_int (split_ws entry)) rest = Ok records →
  Forall (λ r, length r = 6%nat) records →
  let t := {| probe_type := ptype; num_channels := nchan;
              channels := legacy_record <$> records |} in
  parse_imrotbl value = Ok t
  ∧ ∀ (meta : metadata) (f : string),
      meta !! "typeThis" = Some (VStr "imec") →
      meta !! "imroTbl" = Some (VImro t) →
      meta !! "fileName" = Some (VStr f) →
      (endswith ".ap.bin" f = true →
       get_gain meta = Ok (np_array ((λ r, nth 3 r 0) <$> records)))
      ∧ (endswith ".ap.bin" f = false → endswith ".lf.bin" f = true →
         get_gain meta = Ok (np_array ((λ r, nth 4 r 0) <$> records))).
Proof.
  intros Hgroups Hheader Hpt Hrecords Hall t. split.
  - unfold parse_imrotbl. rewrite Hgroups, Hheader, bind_Ok.
    by rewrite (imro_loop_legacy _ [] _ _ Hpt Hrecords Hall).
  - intros meta f Htype Himro Hname. split.
    + intros Hap. rewrite (get_gain_imec_ap meta t f) by done. subst t.
      cbn [channels]. by rewrite (map_result_legacy_field "apgain" 3).
    + intros Hap Hlf. rewrite (get_gain_imec_lf meta t f) by done. subst t.
      cbn [channels]. by rewrite (map_result_legacy_field "lfgain" 4).
Qed.

Lemma legacy_gains_round_trip_witness :
  ∃ t, parse_imrotbl legacy_probe_text = Ok t
    ∧ get_gain {[ "typeThis" := VStr "imec"; "imroTbl" := VImro t;
                  "fileName" := VStr "run.imec0.ap.bin" ]}
      = Ok (IntArray [500; 250])
    ∧ get_gain {[ "typeThis" := VStr "imec"; "imroTbl" := VImro t;
                  "fileName" := VStr "run.imec0.lf.bin" ]}
      = Ok (IntArray [250; 125]).
Proof.
  destruct (legacy_gains_round_trip legacy_probe_text "0,2"
              ["0 0 0 500 250 1"; "1 0 0 250 125 1"] 0 2
              [[0; 0; 0; 500; 250; 1]; [1; 0; 0; 250; 125; 1]])
    as [Hparse Hgain].
  - vm_compute; reflexivity.
  - vm_compute; reflexivity.
  - left.
  - vm_compute; reflexivity.
  - repeat (apply List.Forall_cons; [reflexivity |]). apply List.Forall_nil.
  - eexists. split; [exact Hparse |]. split.
    + apply (Hgain _ "run.imec0.ap.bin"); vm_compute; reflexivity.
    + apply (Hgain _ "run.imec0.lf.bin"); vm_compute; reflexivity.
Defined.

(** ** An LF-band file with a table that has no LF gains *)

Lemma imro_append_no_lfgain (probe_type : Z) (data : list Z) (chs : list int_dict) :
  probe_type ∈ np2_single_types ++ np2_multi_types →
  Forall (λ ch : int_dict, ch !! "lfgain" = None) chs →
  Forall (λ ch : int_dict, ch !! "lfgain" = None)
         (imro_append probe_type data chs).
Proof.
  intros Hpt Hchs.
  assert (∀ ch : int_dict, ch !! "lfgain" = None →
          Forall (λ ch : int_dict, ch !! "lfgain" = None) (chs ++ [ch])) as Hadd.
  { intros ch Hch. apply Forall_app. split; [done |]. by constructor. }
  unfold np2_single_types, np2_multi_types in Hpt. simpl in Hpt.
  repeat (apply elem_of_cons in Hpt as [->|Hpt]);
    [ .. | by apply elem_of_nil in Hpt ];
    unfold imro_append;
    (destruct data as [|c0 [|c1 [|c2 [|c3 [|c4 [|c5 data]]]]]]);
    try exact Hchs; apply Hadd; reflexivity.
Qed.

Lemma imro_loop_no_lfgain (probe_type : Z) (chs out : list int_dict)
    (entries : list string) :
  probe_type ∈ np2_single_types ++ np2_multi_types →
  Forall (λ ch : int_dict, ch !! "lfgain" = None) chs →
  imro_loop probe_type chs entries = Ok out →
  Forall (λ ch : int_dict, ch !! "lfgain" = None) out.
Proof.
  intros Hpt. revert chs. induction entries as [|entry rest IH]; intros chs Hchs; simpl.
  - by intros [= <-].
  - intros H. apply bind_Ok_inv in H as (data & _ & H).
    eapply IH; [| exact H]. by apply imro_append_no_lfgain.
Qed.

Lemma map_result_getitem_missing (key : string) (ch : int_dict)
    (chs : list int_dict) :
  ch !! key = None →
  map_result (λ c : int_dict, getitem c key) (ch :: chs) = Raise (KeyError key).
Proof. intros H. cbn [map_result]. unfold getitem. by rewrite H. Qed.

(** X9.  The channel records parsed for a single-shank or multi-shank
    (NP 2.0) probe type have no [lfgain] field; [get_gain] on an imec
    recording with such a table that has a channel record, for a file name
    with the LF-band suffix, raises [KeyError] on [lfgain]. *)
Theorem get_gain_lf_without_lfgain (value : string) (t : imro_table) :
  parse_imrotbl value = Ok t →
  probe_type t ∈ np2_single_types ++ np2_multi_types →
  channels t ≠ [] →
  Forall (λ ch : int_dict, ch !! "lfgain" = None) (channels t)
  ∧ ∀ (meta : metadata) (f : string),
      meta !! "typeThis" = Some (VStr "imec") →
      meta !! "imroTbl" = Some (VImro t) →
      meta !! "fileName" = Some (VStr f) →
      endswith ".ap.bin" f = false →
      endswith ".lf.bin" f = true →
      get_gain meta = Raise (KeyError "lfgain").
Proof.
  intros Hparse Hpt Hne.
  assert (Forall (λ ch : int_dict, ch !! "lfgain" = None) (channels t)) as Hall.
  { unfold parse_imrotbl in Hparse.
    destruct (findall_lazy_groups value) as [|header rest]; [discriminate |].
    apply bind_Ok_inv in Hparse as ([ptype nchan] & _ & Hparse).
    apply bind_Ok_inv in Hparse as (chs & Hloop & [= <-]). simpl in *.
    eapply imro_loop_no_lfgain; [exact Hpt | constructor | exact Hloop]. }
  split; [exact Hall |].
  intros meta f Htype Himro Hname Hap Hlf.
  rewrite (get_gain_imec_lf meta t f) by done.
  destruct (channels t) as [|ch chs]; [done |].
  apply Forall_cons in Hall as [Hch _].
  by rewrite (map_result_getitem_missing "lfgain" ch chs Hch).
Qed.

Lemma get_gain_lf_without_lfgain_witness :
  parse_imrotbl np2_probe_text = Ok np2_table
  ∧ get_gain {[ "typeThis" := VStr "imec"; "imroTbl" := VImro np2_table;
                "fileName" := VStr "run.imec0.lf.bin" ]}
    = Raise (KeyError "lfgain").
Proof.
  assert (parse_imrotbl np2_probe_text = Ok np2_table) as Hparse
    by (vm_compute; reflexivity).
  assert (length (channels np2_table) = 3%nat) as Hlen
    by (vm_compute; reflexivity).
  destruct (get_gain_lf_without_lfgain np2_probe_text np2_table Hparse)
    as [_ Hgain].
  - replace (probe_type np2_table) with 24 by (vm_compute; reflexivity).
    vm_compute. do 3 right. left.
  - intros Hnil. rewrite Hnil in Hlen. discriminate.
  - split; [exact Hparse |].
    apply (Hgain _ "run.imec0.lf.bin"); vm_compute; reflexivity.
Defined.

(** ** The unpacked bits *)

Lemma element_bits_length (nbits : nat) (v : Z) :
  length (element_bits nbits v) = nbits.
Proof. unfold element_bits. by rewrite length_fmap, length_seq. Qed.

Lemma element_bits_lookup (nbits b : nat) (v : Z) :
  (b < nbits)%nat →
  element_bits nbits v !! b = Some (Z.b2z (Z.testbit v (Z.of_nat b))).
Proof.
  intros Hb. unfold element_bits.
  by rewrite list_lookup_fmap, lookup_seq_lt.
Qed.

Lemma concat_lookup_fixed {A : Type} (n k b : nat) (cs : list (list A))
    (c : list A) (x : A) :
  Forall (λ c, length c = n) cs →
  cs !! k = Some c → c !! b = Some x →
  concat cs !! (k * n + b)%nat = Some x.
Proof.
  intros Hall. revert k. induction Hall as [|c0 cs Hc0 _ IH]; intros k Hk Hb.
  { by rewrite lookup_nil in Hk. }
  destruct k as [|k]; simpl in *.
  - injection Hk as ->. by rewrite lookup_app_l by (by eapply lookup_lt_Some).
  - rewrite lookup_app_r by lia.
    replace (n + k * n + b - length c0)%nat with (k * n + b)%nat by lia.
    by apply IH.
Qed.

Lemma unpack_rows_lookup (dt : dtype) (data : array2 Z)
    (data_bits : list (list Z)) (i : nat) :
  unpack_rows dt data = Ok data_bits →
  data_bits !! i
  = (λ row, concat (element_bits (Z.to_nat (itemsize dt * 8)) <$> row))
    <$> rows data !! i.
Proof.
  unfold unpack_rows. destruct (bool_decide _); [discriminate |].
  intros [= <-]. by rewrite list_lookup_fmap.
Qed.

(** X10.  In the bit matrix [read_digital] unpacks, line [k * nbits + b] of
    row [i] is bit [b] (counted from the least significant one) of the
    [k]-th digital word of sample [i], where [nbits] is the number of bits of
    the element type. *)
Theorem unpack_rows_bit (dt : dtype) (data : array2 Z)
    (data_bits : list (list Z)) (i k b : nat) (row : list Z) (v : Z) :
  unpack_rows dt data = Ok data_bits →
  rows data !! i = Some row →
  row !! k = Some v →
  (b < Z.to_nat (itemsize dt * 8))%nat →
  bit_at data_bits i (k * Z.to_nat (itemsize dt * 8) + b)
  = Z.b2z (Z.testbit v (Z.of_nat b)).
Proof.
  intros Hbits Hrow Hv Hb. unfold bit_at.
  rewrite (unpack_rows_lookup _ _ _ i Hbits), Hrow. simpl.
  rewrite (concat_lookup_fixed (Z.to_nat (itemsize dt * 8)) k b _
             (element_bits (Z.to_nat (itemsize dt * 8)) v)
             (Z.b2z (Z.testbit v (Z.of_nat b)))); [done | | |].
  - apply Forall_fmap, Forall_forall. intros x _. apply element_bits_length.
  - by rewrite list_lookup_fmap, Hv.
  - by apply element_bits_lookup.
Qed.

Lemma unpack_rows_bit_witness :
  unpack_rows uint16 {| ncols := 2; rows := [[0; 5]; [1; 6]] |}
  = Ok ((λ row, concat (element_bits 16 <$> row)) <$> [[0; 5]; [1; 6]])
  ∧ bit_at ((λ row, concat (element_bits 16 <$> row)) <$> [[0; 5]; [1; 6]])
           1 (1 * 16 + 2) = 1.
Proof.
  assert (unpack_rows uint16 {| ncols := 2; rows := [[0; 5]; [1; 6]] |}
          = Ok ((λ row, concat (element_bits 16 <$> row)) <$> [[0; 5]; [1; 6]]))
    as Hbits by reflexivity.
  split; [exact Hbits |].
  apply (unpack_rows_bit uint16 _ _ 1 1 2 [1; 6] 6 Hbits);
    [reflexivity | reflexivity | simpl; lia].
Defined.

Lemma elem_of_concat {A : Type} (x : A) (cs : list (list A)) :
  x ∈ concat cs → ∃ c, x ∈ c ∧ c ∈ cs.
Proof.
  induction cs as [|c cs IH]; simpl; [by intros ?%elem_of_nil |].
  intros [Hx | Hx]%elem_of_app.
  - exists c. split; [done | left].
  - destruct (IH Hx) as (c' & ? & ?). exists c'. split; [done | by right].
Qed.

Lemma unpack_rows_binary (dt : dtype) (data : array2 Z)
    (data_bits : list (list Z)) (i j : nat) (x : Z) :
  unpack_rows dt data = Ok data_bits →
  data_bits !! i ≫= (.!! j) = Some x → x = 0 ∨ x = 1.
Proof.
  intros Hbits. rewrite (unpack_rows_lookup _ _ _ i Hbits).
  destruct (rows data !! i) as [row|]; [| discriminate]. simpl.
  intros Hx. apply list_elem_of_lookup_2, elem_of_concat in Hx
    as (c & Hx & Hc).
  apply list_elem_of_fmap in Hc as (v & -> & _).
  unfold element_bits in Hx. apply list_elem_of_fmap in Hx as (b & -> & _).
  destruct (Z.testbit v (Z.of_nat b)); simpl; lia.
Qed.

(** X11.  The type of an event tells the edge: an event of type 1 (onset)
    is at a line that was 0 at the sample before and is 1 at the sample of
    the event, an event of type 0 (offset) at a line that was 1 and is 0; no
    event has another type. *)
Theorem read_digital_edges (fs : filesystem) (filename : string) (dt : dtype)
    (events : list event) :
  read_digital fs filename dt = Ok events →
  ∃ data_bits, digital_bits fs filename dt data_bits
    ∧ ∀ e, e ∈ events →
        let s := Z.to_nat (ev_sample e) in
        let c := Z.to_nat (ev_chan e) in
        (ev_type e = 1 ∧ bit_at data_bits (s - 1) c = 0 ∧ bit_at data_bits s c = 1)
        ∨ (ev_type e = 0 ∧ bit_at data_bits (s - 1) c = 1 ∧ bit_at data_bits s c = 0).
Proof.
  intros Hread.
  destruct (read_digital_events _ _ _ _ Hread) as (data_bits & Hbits & Hev & _).
  exists data_bits. split; [exact Hbits |].
  intros e He s c. destruct (Hev e He) as (Hs & Hc & Hch & Htype).
  fold s c in Hch, Htype.
  destruct Hbits as (bin_fn & meta_fn & meta & n & sel & data & _ & _ & _ & _ & _ & Hun).
  destruct Hch as (a & b & Ha & Hb & Hab).
  replace (S (s - 1)) with s in Hb by lia.
  pose proof (unpack_rows_binary _ _ _ _ _ _ Hun Ha) as Ha01.
  pose proof (unpack_rows_binary _ _ _ _ _ _ Hun Hb) as Hb01.
  unfold bit_at in *. rewrite Ha, Hb in *. simpl in *.
  destruct Ha01 as [-> | ->], Hb01 as [-> | ->]; try (by destruct Hab);
    [left | right]; (split; [exact Htype | by split]).
Qed.

Lemma read_digital_edges_witness :
  read_digital digital_fs "run.imec0.ap.bin" uint16 = Ok digital_events
  ∧ ∃ data_bits, digital_bits digital_fs "run.imec0.ap.bin" uint16 data_bits
    ∧ bit_at data_bits 0 0 = 0 ∧ bit_at data_bits 1 0 = 1.
Proof.
  assert (read_digital digital_fs "run.imec0.ap.bin" uint16 = Ok digital_events)
    as Hread by (vm_compute; reflexivity).
  split; [exact Hread |].
  destruct (read_digital_edges _ _ _ _ Hread) as (data_bits & Hbits & Hedge).
  exists data_bits. split; [exact Hbits |].
  destruct (Hedge {| ev_time := PrimFloat.div 1 30000; ev_sample := 1;
                     ev_chan := 0; ev_type := 1 |}) as [H | H].
  - left.
  - simpl in H. destruct H as (_ & H0 & H1). by split.
  - simpl in H. destruct H as (H & _). discriminate.
Defined.

(** ** [parse_snschanmap]: what the entry pattern matches first *)

Lemma append_cons (c : ascii) (a b : string) :
  String c a +:+ b = String c (a +:+ b).
Proof. reflexivity. Qed.

Lemma append_nil (b : string) : "" +:+ b = b.
Proof. reflexivity. Qed.

Ltac str_simpl := rewrite ?append_cons, ?append_nil.

Lemma append_empty_r (s : string) : s +:+ "" = s.
Proof. induction s as [|c s IH]; [done |]. by rewrite append_cons, IH. Qed.

Lemma length_append (a b : string) :
  String.length (a +:+ b) = (String.length a + String.length b)%nat.
Proof.
  induction a as [|c a IH]; [done |]. rewrite append_cons. simpl. by rewrite IH.
Qed.

Lemma upto_semicolon_append (a b : string) :
  ";"%char ∉ list_ascii_of_string a →
  upto_semicolon (a +:+ b)
  = match upto_semicolon b with
    | Some (x, y) => Some (a +:+ x, y)
    | None => None
    end.
Proof.
  induction a as [|c a IH].
  - intros _. rewrite append_nil. by destruct (upto_semicolon b) as [[x y]|].
  - simpl list_ascii_of_string. intros [Hc Ha]%not_elem_of_cons.
    rewrite append_cons. cbn [upto_semicolon]. unfold ascii_eqb.
    rewrite bool_decide_eq_false_2 by congruence.
    rewrite (IH Ha). by destruct (upto_semicolon b) as [[x y]|].
Qed.

Lemma digit_run_append (d : string) (c : ascii) (r : string) :
  Forall (λ c, is_digit c = true) (list_ascii_of_string d) →
  is_digit c = false →
  digit_run (d +:+ String c r) = (d, String c r).
Proof.
  intros Hd Hc. induction d as [|x d IH].
  - rewrite append_nil. cbn [digit_run]. by rewrite Hc.
  - simpl list_ascii_of_string in Hd. apply Forall_cons in Hd as [Hx Hd].
    rewrite append_cons. cbn [digit_run]. by rewrite Hx, (IH Hd).
Qed.

Lemma digits1_append (d : string) (c : ascii) (r : string) :
  digit_string d → is_digit c = false →
  digits1 (d +:+ String c r) = Some (d, String c r).
Proof.
  intros [Hne Hd] Hc. unfold digits1. rewrite (digit_run_append d c r Hd Hc).
  by destruct d.
Qed.

Lemma scan_groups_skip {A : Type} (body : string → option (A * nat))
    (a r : string) (n : nat) :
  scan_groups body (String.length a + n) (a +:+ r) = scan_groups body n r.
Proof.
  induction a as [|c a IH]; [done |]. rewrite append_cons. exact IH.
Qed.

(** The first match of the entry pattern on a channel map that starts with a
    header group. *)
Lemma chan_entries_first (hdr name ch ord rest : string) :
  ";"%char ∉ list_ascii_of_string hdr →
  ";"%char ∉ list_ascii_of_string name →
  digit_string ch → digit_string ord →
  scan_groups chan_entry_body 0
    ("(" +:+ hdr +:+ ")(" +:+ name +:+ ";" +:+ ch +:+ ":" +:+ ord +:+ ")" +:+ rest)
  = (hdr +:+ ")(" +:+ name, ch, ord) :: scan_groups chan_entry_body 0 rest.
Proof.
  intros Hhdr Hname Hch Hord. str_simpl.
  set (tail := ch +:+ String ":" (ord +:+ String ")" rest)).
  set (name0 := hdr +:+ String ")" (String "(" name)).
  assert (upto_semicolon (hdr +:+ String ")" (String "(" (name +:+ String ";" tail)))
          = Some (name0, tail)) as Hsemi.
  { rewrite (upto_semicolon_append hdr) by done. cbn [upto_semicolon].
    change (ascii_eqb ")" ";") with false. change (ascii_eqb "(" ";") with false.
    cbn iota. rewrite (upto_semicolon_append name) by done.
    cbn [upto_semicolon]. change (ascii_eqb ";" ";") with true. cbn iota.
    subst name0. str_simpl. by rewrite append_empty_r. }
  assert (chan_entry_body
            (hdr +:+ String ")" (String "(" (name +:+ String ";" tail)))
          = Some ((name0, ch, ord),
                  (String.length name0 + 1 + String.length ch + 1
                   + String.length ord + 1)%nat)) as Hbody.
  { unfold chan_entry_body. rewrite Hsemi. cbn [mbind option_bind].
    replace (is_empty name0) with false by (subst name0; by destruct hdr).
    subst tail.
    rewrite (digits1_append ch ":" _ Hch eq_refl). cbn [mbind option_bind].
    rewrite (digits1_append ord ")" _ Hord eq_refl). cbn [mbind option_bind].
    reflexivity. }
  cbn [scan_groups]. change (ascii_eqb "(" "(") with true. cbn iota.
  rewrite Hbody. f_equal.
  subst name0. rewrite length_append. cbn [String.length].
  replace (String.length hdr + S (S (String.length name)) + 1
           + String.length ch + 1 + String.length ord + 1)%nat
    with (String.length hdr
          + (2 + (String.length name
                  + (1 + (String.length ch
                          + (1 + (String.length ord + (1 + 0))))))))%nat by lia.
  rewrite (scan_groups_skip _ hdr).
  cbn [scan_groups Nat.add]. rewrite (scan_groups_skip _ name).
  cbn [scan_groups Nat.add]. subst tail. rewrite (scan_groups_skip _ ch).
  cbn [scan_groups Nat.add]. rewrite (scan_groups_skip _ ord).
  reflexivity.
Qed.

(** X12.  When the channel map starts with a header group and a first entry
    [(name;channel:order)], the entry pattern matches from the parenthesis of
    the header: the first record [parse_snschanmap] returns is named by the
    header text, [")("] and the name of the first entry, not by the name
    alone. *)
Theorem parse_snschanmap_first_name (hdr name ch ord rest : string)
    (m : chan_map) :
  ";"%char ∉ list_ascii_of_string hdr →
  ";"%char ∉ list_ascii_of_string name →
  digit_string ch → digit_string ord →
  parse_snschanmap
    ("(" +:+ hdr +:+ ")(" +:+ name +:+ ";" +:+ ch +:+ ":" +:+ ord +:+ ")" +:+ rest)
  = Ok m →
  ∃ c o others,
    py_int ch = Ok c ∧ py_int ord = Ok o
    ∧ channel_map m
      = {| ce_name := hdr +:+ ")(" +:+ name; ce_channel := c; ce_order := o |}
        :: others.
Proof.
  intros Hhdr Hname Hch Hord. unfold parse_snschanmap. intros H.
  apply bind_Ok_inv in H as (header & _ & H).
  apply bind_Ok_inv in H as (entries & Hentries & [= <-]).
  rewrite chan_entries_first in Hentries by done.
  cbn [map_result] in Hentries.
  apply bind_Ok_inv in Hentries as (e & He & Hentries).
  apply bind_Ok_inv in Hentries as (others & _ & [= <-]).
  apply bind_Ok_inv in He as (c & Hc & He).
  apply bind_Ok_inv in He as (o & Ho & [= <-]).
  by exists c, o, others.
Qed.

Lemma parse_snschanmap_first_name_witness :
  ∃ m others,
    parse_snschanmap chan_map_text = Ok m
    ∧ channel_map m
      = {| ce_name := "384,384,1)(AP0"; ce_channel := 0; ce_order := 0 |}
        :: others.
Proof.
  destruct (parse_snschanmap chan_map_text) as [m|e] eqn:Hparse;
    [| vm_compute in Hparse; discriminate].
  destruct (parse_snschanmap_first_name "384,384,1" "AP0" "0" "0"
              "(AP1;1:1)(SY0;768:768)" m) as (c & o & others & Hc & Ho & Hm).
  - vm_compute. intros H.
    repeat (apply elem_of_cons in H as [H|H]; [discriminate |]).
    by apply elem_of_nil in H.
  - vm_compute. intros H.
    repeat (apply elem_of_cons in H as [H|H]; [discriminate |]).
    by apply elem_of_nil in H.
  - split; [discriminate | repeat (apply List.Forall_cons; [reflexivity |]); apply List.Forall_nil].
  - split; [discriminate | repeat (apply List.Forall_cons; [reflexivity |]); apply List.Forall_nil].
  - exact Hparse.
  - exists m, others. split; [reflexivity |].
    vm_compute in Hc. injection Hc as <-. vm_compute in Ho. injection Ho as <-.
    exact Hm.
Defined.

(** ** Bytes after the last whole frame *)








(** ** Groups that do not fit the layout *)

Lemma imro_append_legacy_other (ptype : Z) (r : list Z) (chs : list int_dict) :
  ptype ∈ np1_types → length r ≠ 6%nat → imro_append ptype r chs = chs.
Proof.
  intros Hpt Hlen. unfold imro_append, mem.
  rewrite bool_decide_eq_true_2 by done.
  by destruct r as [|c0 [|c1 [|c2 [|c3 [|c4 [|c5 [|c6 r]]]]]]].
Qed.

Lemma imro_loop_legacy_filter (ptype : Z) (acc : list int_dict)
    (rest : list string) (records : list (list Z)) :
  ptype ∈ np1_types →
  map_result (λ entry, map_result py_int (split_ws entry)) rest = Ok records →
  imro_loop ptype acc rest
  = Ok (acc ++ (legacy_record <$> filter (λ r, length r = 6%nat) records)).
Proof.
  intros Hpt. revert acc records.
  induction rest as [|entry rest IH]; intros acc records; cbn [map_result imro_loop].
  - intros [= <-]. by rewrite app_nil_r.
  - intros H. apply bind_Ok_inv in H as (r & Hr & H).
    apply bind_Ok_inv in H as (rs & Hrs & [= <-]).
    rewrite Hr, bind_Ok. rewrite filter_cons.
    destruct (decide (length r = 6%nat)) as [Hlen | Hlen].
    + rewrite (imro_append_legacy _ _ _ Hpt Hlen), (IH _ rs Hrs).
      by rewrite fmap_cons, <- app_assoc.
    + by rewrite (imro_append_legacy_other _ _ _ Hpt Hlen), (IH _ rs Hrs).
Qed.

(** X14.  For a legacy (6-field) probe type, [parse_imrotbl] keeps the groups
    of exactly six integers, in order, and drops every other group without an
    error; the channel count of the header is not compared with the number of
    records kept. *)
Theorem parse_imrotbl_drops_other_groups (value header : string)
    (rest : list string) (ptype nchan : Z) (records : list (list Z)) :
  findall_lazy_groups value = header :: rest →
  unpack2_int (split_char "," header) = Ok (ptype, nchan) →
  ptype ∈ np1_types →
  map_result (λ entry, map_result py_int (split_ws entry)) rest = Ok records →
  parse_imrotbl value
  = Ok {| probe_type := ptype; num_channels := nchan;
          channels := legacy_record
                      <$> filter (λ r, length r = 6%nat) records |}.
Proof.
  intros Hgroups Hheader Hpt Hrecords. unfold parse_imrotbl.
  rewrite Hgroups, Hheader, bind_Ok.
  by rewrite (imro_loop_legacy_filter _ [] _ _ Hpt Hrecords).
Qed.

Lemma parse_imrotbl_drops_other_groups_witness :
  parse_imrotbl ragged_probe_text
  = Ok {| probe_type := 0; num_channels := 3;
          channels := [legacy_record [0; 0; 0; 500; 250; 1];
                       legacy_record [2; 0; 0; 250; 125; 1]] |}.
Proof.
  apply (parse_imrotbl_drops_other_groups ragged_probe_text "0,3"
           ["0 0 0 500 250 1"; "1 0 0 500"; "2 0 0 250 125 1"] 0 3
           [[0; 0; 0; 500; 250; 1]; [1; 0; 0; 500]; [2; 0; 0; 250; 125; 1]]).
  - vm_compute; reflexivity.
  - vm_compute; reflexivity.
  - left.
  - vm_compute; reflexivity.
Defined.

(** ** The marker of a key *)

Lemma rstrip_head (c c' : ascii) (s s' : string) :
  rstrip (String c s) = String c' s' → c' = c.
Proof.
  cbn [rstrip]. destruct (is_space c && is_empty (rstrip s)); [discriminate |].
  by intros [= -> _].
Qed.

Lemma split_once_head (sep c c' : ascii) (s a b : string) :
  split_once sep (String c s) = Some (String c' a, b) → c' = c.
Proof.
  cbn [split_once]. destruct (ascii_eqb c sep); [discriminate |].
  destruct (split_once sep s) as [[x y]|]; [| discriminate]. by intros [= -> _ _].
Qed.

(** X15.  A marker ["~"] in front of a line is dropped from the key and
    changes nothing else: for a line that starts neither with whitespace nor
    with a marker of its own, the line and the line with a marker in front
    give the same key and the same value, or the same error. *)
Theorem parse_line_marker (line : string) :
  starts_plain line →
  parse_line ("~" +:+ line) = parse_line line.
Proof.
  intros Hplain. unfold parse_line.
  assert (strip line = rstrip line) as Hstrip.
  { unfold strip. destruct line as [|c s]; [done |].
    destruct Hplain as [Hc _]. cbn [lstrip]. by rewrite Hc. }
  assert (strip ("~" +:+ line) = String "~" (rstrip line)) as Hmark.
  { rewrite append_cons, append_nil. reflexivity. }
  rewrite Hmark, Hstrip. cbn [split_once].
  change (ascii_eqb "~" "=") with false. cbn iota.
  destruct (split_once "=" (rstrip line)) as [[a b]|] eqn:Hsplit; [| done].
  destruct a as [|c' a']; [done |].
  destruct (rstrip line) as [|c0 s0] eqn:Hr; [discriminate |].
  apply split_once_head in Hsplit as ->.
  destruct line as [|c s]; [discriminate |].
  apply rstrip_head in Hr as ->. destruct Hplain as [_ Hc].
  destruct (decide (c = "~"%char)) as [-> | Hne]; [done |].
  destruct c as [[] [] [] [] [] [] [] []]; try reflexivity. by destruct Hne.
Qed.

Lemma parse_line_marker_witness :
  parse_line ("~" +:+ "snsApLfSy=384,0,1") = parse_line "snsApLfSy=384,0,1".
Proof.
  apply parse_line_marker. split; [reflexivity | discriminate].
Defined.

(** ** Either name of the pair *)

Lemma endswith_append (p s : string) : endswith p (s +:+ p) = true.
Proof.
  induction s as [|c s IH].
  - rewrite append_nil. destruct p as [|a p]; [done |].
    cbn [endswith]. by rewrite bool_decide_eq_true_2.
  - rewrite append_cons. cbn [endswith]. rewrite IH. apply orb_true_r.
Qed.

Lemma endswith_meta_bin (s : string) : endswith ".meta" (s +:+ ".bin") = false.
Proof.
  induction s as [|c s IH]; [reflexivity |].
  rewrite append_cons. cbn [endswith]. rewrite IH, orb_false_r.
  apply bool_decide_eq_false_2. intros Heq.
  assert (s = "") as ->.
  { apply (f_equal String.length) in Heq. simpl in Heq.
    rewrite length_append in Heq. destruct s; [done | simpl in Heq; lia]. }
  rewrite append_nil in Heq. congruence.
Qed.

Lemma startswith_bin_append (s : string) :
  s ≠ "" → startswith ".bin" s = false →
  startswith ".bin" (s +:+ ".bin") = false.
Proof.
  intros Hne. destruct s as [|c0 [|c1 [|c2 [|c3 s]]]]; [done | ..];
    rewrite ?append_cons, ?append_nil; cbn [startswith];
    repeat match goal with
           | |- context [ascii_eqb ?a ?b] => is_var b; destruct (ascii_eqb a b)
           end;
    vm_compute; congruence.
Qed.

Lemma startswith_meta_append (s : string) :
  s ≠ "" → startswith ".meta" s = false →
  startswith ".meta" (s +:+ ".meta") = false.
Proof.
  intros Hne. destruct s as [|c0 [|c1 [|c2 [|c3 [|c4 s]]]]]; [done | ..];
    rewrite ?append_cons, ?append_nil; cbn [startswith];
    repeat match goal with
           | |- context [ascii_eqb ?a ?b] => is_var b; destruct (ascii_eqb a b)
           end;
    vm_compute; congruence.
Qed.

Lemma replace_bin_suffix (s : string) :
  contains ".bin" s = false →
  replace ".bin" ".meta" (s +:+ ".bin") = s +:+ ".meta".
Proof.
  unfold replace. induction s as [|c s IH]; [reflexivity |].
  cbn [contains]. intros [Hhere Hrest]%orb_false_iff.
  rewrite append_cons. cbn [replace_from].
  rewrite <- append_cons, (startswith_bin_append (String c s)) by done.
  rewrite !append_cons. by rewrite (IH Hrest).
Qed.

Lemma replace_meta_suffix (s : string) :
  contains ".meta" s = false →
  replace ".meta" ".bin" (s +:+ ".meta") = s +:+ ".bin".
Proof.
  unfold replace. induction s as [|c s IH]; [reflexivity |].
  cbn [contains]. intros [Hhere Hrest]%orb_false_iff.
  rewrite append_cons. cbn [replace_from].
  rewrite <- append_cons, (startswith_meta_append (String c s)) by done.
  rewrite !append_cons. by rewrite (IH Hrest).
Qed.

Lemma file_pair_either (fs : filesystem) (stem : string) :
  contains ".bin" stem = false → contains ".meta" stem = false →
  file_pair fs (stem +:+ ".bin") = file_pair fs (stem +:+ ".meta").
Proof.
  intros Hbin Hmeta. unfold file_pair.
  rewrite endswith_meta_bin, !endswith_append.
  by rewrite replace_bin_suffix, replace_meta_suffix.
Qed.

(** X16.  The two names of a pair are interchangeable: for a stem in which
    neither [".bin"] nor [".meta"] occurs, [read_analog] and [read_digital]
    called with the stem and [".bin"] return what they return with the stem
    and [".meta"]. *)
Theorem either_name_of_the_pair (fs : filesystem) (stem : string) (dt : dtype)
    (channel_idx : option selection) (sample_range : option (Z * Z)) :
  contains ".bin" stem = false → contains ".meta" stem = false →
  read_analog fs (stem +:+ ".bin") dt channel_idx sample_range
  = read_analog fs (stem +:+ ".meta") dt channel_idx sample_range
  ∧ read_digital fs (stem +:+ ".bin") dt = read_digital fs (stem +:+ ".meta") dt.
Proof.
  intros Hbin Hmeta. unfold read_analog, read_digital.
  by rewrite (file_pair_either fs stem Hbin Hmeta).
Qed.

Lemma either_name_of_the_pair_witness :
  read_analog analog_fs ("run.imec0.ap" +:+ ".bin") int16 None None
  = read_analog analog_fs ("run.imec0.ap" +:+ ".meta") int16 None None
  ∧ read_digital analog_fs ("run.imec0.ap" +:+ ".bin") int16
    = read_digital analog_fs ("run.imec0.ap" +:+ ".meta") int16.
Proof.
  apply either_name_of_the_pair; vm_compute; reflexivity.
Defined.
